(** * DEA research tool: extraction, dispatch, reporting and the web job

    A shallow embedding of [dea_research_tool.py] (class [DEAResearchTool])
    and of [web_pager.py] (the Flask control surface and its background
    worker), with the properties of the specification stated over it.

    Conventions.
    - A Python [str] is a [string] whose characters are the code points 0
      to 255 (Latin-1). On these [str.lower], [str.isspace], [str.strip]
      and the classes [\d] and [\s] of [re] are exactly the functions
      below; text with other code points is outside the model.
    - A Python [dict] used as a record is a Rocq record whose fields are
      options: [None] is an absent key, so that [d.get(k, default)] and
      ["k" in d] keep their meaning.
    - The network and the markup library are outside the program: what a
      request returns and what a markup query finds are inputs of the model. *)

From Stdlib Require Import ZArith Ascii String.
From stdpp Require Import base list strings pretty.

Local Open Scope Z_scope.

(** ** Python string primitives *)

Module Py.

(** the characters that [str.lower] changes: A to Z, and the accented
    capitals U+00C0 to U+00DE without the multiplication sign U+00D7 *)
Definition is_upper (c : ascii) : bool :=
  let n := nat_of_ascii c in
  ((65 <=? n)%nat && (n <=? 90)%nat)
  || ((192 <=? n)%nat && (n <=? 222)%nat && negb (n =? 215)%nat).

Definition lower_char (c : ascii) : ascii :=
  if is_upper c then ascii_of_nat (nat_of_ascii c + 32) else c.

(** [s.lower()] *)
Fixpoint lower (s : string) : string :=
  match s with
  | EmptyString => EmptyString
  | String c t => String (lower_char c) (lower t)
  end.

(** [str.isspace] on one character: tab, LF, VT, FF, CR, FS, GS, RS, US,
    the blank, NEL (U+0085) and the no-break space (U+00A0). The same set
    is the regular-expression class [\s]. *)
Definition is_space (c : ascii) : bool :=
  let n := nat_of_ascii c in
  ((9 <=? n)%nat && (n <=? 13)%nat) || ((28 <=? n)%nat && (n <=? 32)%nat)
  || (n =? 133)%nat || (n =? 160)%nat.

(** the regular-expression class [\d]: among the code points 0 to 255
    the decimal digits are 0 to 9 *)
Definition is_digit (c : ascii) : bool :=
  let n := nat_of_ascii c in (48 <=? n)%nat && (n <=? 57)%nat.

(** [s.startswith(p)] *)
Fixpoint startswith (p s : string) : bool :=
  match p, s with
  | EmptyString, _ => true
  | String a p', String b s' => if Ascii.eqb a b then startswith p' s' else false
  | String _ _, EmptyString => false
  end.

(** [needle in hay] *)
Fixpoint contains (needle hay : string) : bool :=
  match hay with
  | EmptyString => startswith needle hay
  | String _ t => startswith needle hay || contains needle t
  end.

Fixpoint lstrip (s : string) : string :=
  match s with
  | EmptyString => EmptyString
  | String c t => if is_space c then lstrip t else s
  end.

(** [s.strip()] *)
Definition strip (s : string) : string :=
  String.rev (lstrip (String.rev (lstrip s))).

(** [sep.join(l)] *)
Fixpoint join (sep : string) (l : list string) : string :=
  match l with
  | [] => ""
  | [x] => x
  | x :: rest => x +:+ sep +:+ join sep rest
  end.

(** [l[:n]] for a Python integer [n]: a negative bound counts from the
    end of the list. *)
Definition slice_to {A} (l : list A) (n : Z) : list A :=
  if 0 <=? n then take (Z.to_nat n) l
  else take (length l - Z.to_nat (- n)) l.

(** the first [n] characters of [s] *)
Fixpoint take_str (n : nat) (s : string) : string :=
  match n, s with
  | S n', String c t => String c (take_str n' t)
  | _, _ => EmptyString
  end.

End Py.

(** ** A backtracking matcher for the patterns of [extract_key_info]

    Python's [re] is a backtracking engine: alternatives are tried left to
    right, quantifiers are greedy, and the first way to match wins. The
    matcher below is written in continuation-passing style to follow it.
    The patterns of the tool have one capturing group. *)

Module Re.

Inductive regex : Type :=
| Lit (c : ascii)
| Digit
| Space
| Cat (r1 r2 : regex)
| Alt (r1 r2 : regex)
| Star (r : regex)
| Opt (r : regex)
| Group (r : regex).

Definition Plus (r : regex) : regex := Cat r (Star r).

(** a literal word, at least one character long *)
Fixpoint word_from (c : ascii) (s : string) : regex :=
  match s with
  | EmptyString => Lit c
  | String d t => Cat (Lit c) (word_from d t)
  end.

(** what a successful match gives: the text of group 1 and the rest of
    the subject after the match *)
Definition outcome : Type := option string * string.
Definition kont : Type := string → option string → option outcome.

Definition orelse (a : option outcome) (b : unit → option outcome) : option outcome :=
  match a with
  | Some x => Some x
  | None => b tt
  end.

Definition class (f : ascii → bool) (s : string) (g : option string) (k : kont)
  : option outcome :=
  match s with
  | String a t => if f a then k t g else None
  | EmptyString => None
  end.

Fixpoint bt (r : regex) (s : string) (g : option string) (k : kont) {struct r}
  : option outcome :=
  match r with
  | Lit c => class (Ascii.eqb c) s g k
  | Digit => class Py.is_digit s g k
  | Space => class Py.is_space s g k
  | Cat r1 r2 => bt r1 s g (λ s' g', bt r2 s' g' k)
  | Alt r1 r2 => orelse (bt r1 s g k) (λ _, bt r2 s g k)
  | Opt r1 => orelse (bt r1 s g k) (λ _, k s g)
  | Star r1 =>
      (fix loop (n : nat) (s : string) (g : option string) {struct n} :=
         match n with
         | O => k s g
         | S n' =>
             orelse
               (bt r1 s g (λ s' g',
                  if (Strings.String.length s' <? Strings.String.length s)%nat
                  then loop n' s' g' else None))
               (λ _, k s g)
         end) (Strings.String.length s) s g
  | Group r1 =>
      bt r1 s g (λ s' g',
        k s' (Some (Py.take_str
                      (Strings.String.length s - Strings.String.length s') s)))
  end.

(** In the [Star] case the loop runs at most once per character of the
    subject: an iteration that consumes nothing is given up, so the length
    of the subject is fuel enough. *)

(** a match anchored at the start of [s] *)
Definition match_here (r : regex) (s : string) : option outcome :=
  bt r s None (λ s' g, Some (g, s')).

(** [re.findall(r, s)] for a pattern with one group: the group's text for
    every match, the matches taken left to right without overlap. *)
Fixpoint findall_go (fuel : nat) (r : regex) (s : string) : list string :=
  match fuel with
  | O => []
  | S fuel' =>
      match match_here r s with
      | Some (g, rest) =>
          default "" g ::
            (if (Strings.String.length rest <? Strings.String.length s)%nat
             then findall_go fuel' r rest
             else match s with
                  | EmptyString => []
                  | String _ t => findall_go fuel' r t
                  end)
      | None =>
          match s with
          | EmptyString => []
          | String _ t => findall_go fuel' r t
          end
      end
  end.

Definition findall (r : regex) (s : string) : list string :=
  findall_go (S (Strings.String.length s)) r s.

End Re.

(** ** Data model: the dictionaries of the tool *)

(** a performance metric as stored: Python's [None] or a string *)
Inductive metric : Type :=
| PyNone
| PyStr (s : string).

(** how an f-string renders a metric *)
Definition metric_str (m : metric) : string :=
  match m with
  | PyNone => "None"
  | PyStr s => s
  end.

(** the dictionary under ["performance_metrics"] *)
Record performance_metrics : Type := {
  strain : option metric;
  energy_density : option metric;
  response_time : option metric
}.

(** the dictionary returned by [extract_key_info] *)
Record key_info : Type := {
  dea_type : option (list string);
  materials : option (list string);
  performance : option performance_metrics;
  applications : option (list string)
}.

(** a paper dictionary: what the adapters return, what [search_papers]
    lists, and what [process_papers] annotates with ["key_info"] *)
Record paper : Type := {
  title : option string;
  authors : option (list string);
  abstract : option string;
  publication_date : option string;
  doi : option string;
  url : option string;
  source : option string;
  error : option string;
  info : option key_info
}.

(** ["error" in paper] *)
Definition has_error (p : paper) : bool := bool_decide (is_Some (error p)).

(** ** [extract_key_info] *)

Definition dea_types : list string :=
  ["dielectric elastomer actuator"; "DEA"; "dielectric elastomer"].

Definition materials_vocabulary : list string :=
  ["silicone"; "acrylic"; "polyurethane"; "VHB"; "PDMS"].

Definition applications_vocabulary : list string :=
  ["soft robot"; "wearable"; "haptic"; "sensor"; "energy harvesting"].

(** the capturing group of both patterns: [\d+ \.? \d*] in parentheses *)
Definition number : Re.regex :=
  Re.Group (Re.Cat (Re.Plus Re.Digit)
              (Re.Cat (Re.Opt (Re.Lit "."%char)) (Re.Star Re.Digit))).

Definition spaces : Re.regex := Re.Star Re.Space.

(** [strain_pattern]: the number, [%], [\s*], then [strain] or
    [area \s* strain] in a non-capturing group *)
Definition strain_pattern : Re.regex :=
  Re.Cat number
    (Re.Cat (Re.Lit "%"%char)
       (Re.Cat spaces
          (Re.Alt (Re.word_from "s"%char "train")
             (Re.Cat (Re.word_from "a"%char "rea")
                (Re.Cat spaces (Re.word_from "s"%char "train")))))).

(** [energy_pattern]: the number, [\s*], then one of [j/kg], [joule/kg],
    [j \s* kg-1] in a non-capturing group *)
Definition energy_pattern : Re.regex :=
  Re.Cat number
    (Re.Cat spaces
       (Re.Alt (Re.word_from "j"%char "/kg")
          (Re.Alt (Re.word_from "j"%char "oule/kg")
             (Re.Cat (Re.Lit "j"%char)
                (Re.Cat spaces (Re.word_from "k"%char "g-1")))))).

(** One vocabulary loop of the source:
    [for v in vocab: if v.lower() in text: out.append(v)]. *)
Definition scan_vocabulary (vocab : list string) (text : string) : list string :=
  foldl (λ out v, if Py.contains (Py.lower v) text then out ++ [v] else out)
        [] vocab.

(** the first match of a pattern, with a unit appended, or Python's [None] *)
Definition first_match (pat : Re.regex) (text unit : string) : metric :=
  match Re.findall pat text with
  | [] => PyNone
  | m :: _ => PyStr (m +:+ unit)
  end.

Definition extract_key_info (p : paper) : key_info :=
  let text := Py.lower (default "" (abstract p)) in
  {| dea_type := Some (scan_vocabulary dea_types text);
     materials := Some (scan_vocabulary materials_vocabulary text);
     performance := Some
       {| strain := Some (first_match strain_pattern text "%");
          energy_density := Some (first_match energy_pattern text " J/kg");
          response_time := Some PyNone |};
     applications := Some (scan_vocabulary applications_vocabulary text) |}.

(** a paper that has only an abstract *)
Definition abstract_only (a : string) : paper :=
  {| title := None; authors := None; abstract := Some a;
     publication_date := None; doi := None; url := None; source := None;
     error := None; info := None |}.

Definition scenario_abstract : string :=
  "This dielectric elastomer actuator achieves 150% area strain and 800 J/kg energy density in a soft robot application".

(** ** The outside world: requests and markup queries

    A request either raises (a connection error, a status that
    [raise_for_status] rejects, a document the parser refuses) or gives a
    document. A document is seen through the markup queries the code makes
    on it: every field below is the answer to one [find]/[find_all], the
    text of the element found or [None]. *)

Inductive http (A : Type) : Type :=
| Failed (msg : string)
| Ok (page : A).
Arguments Failed {A} msg.
Arguments Ok {A} page.

(** a Nature article page *)
Record nature_page : Type := {
  n_h1 : option string;
  (** [ul.c-article-author-list]: for each [li], the text of its first [a] *)
  n_author_list : option (list (option string));
  n_abs1_content : option string;
  n_abstract_section : option string;
  n_time : option string;
  n_doi : option string
}.

(** an [entry] of the arXiv API answer; each author is the text of its
    [name] element *)
Record arxiv_entry : Type := {
  a_title : option string;
  a_authors : list (option string);
  a_summary : option string;
  a_published : option string
}.

(** a PubMed Central article page *)
Record pubmed_page : Type := {
  (** [hgroup], and inside it the text of [h1] *)
  p_hgroup : option (option string);
  (** every [div.contrib-group]: the texts of its [a.author-name] *)
  p_contrib_groups : list (list string);
  p_abstract : option string;
  p_time : option string
}.

(** an [article] element of the Nature search page: the text of its [h3]
    and its tracked link with the [href] attribute, if it has one *)
Record article : Type := {
  art_h3 : option string;
  art_link : option (option string)
}.

(** what a call gives: the value it returns, or the exception it raises
    (by the text of [str(e)]) *)
Inductive result (A : Type) : Type :=
| Return (a : A)
| Raise (exc : string).
Arguments Return {A} a.
Arguments Raise {A} exc.

Record env : Type := {
  (** [urlparse(url).netloc]; [urlparse] raises [ValueError] on some
      addresses, for instance on a host with one square bracket and not
      the other *)
  netloc : string → result string;
  get_nature : string → http nature_page;
  get_arxiv : string → http (option arxiv_entry);
  get_pubmed : string → http pubmed_page;
  get_search : string → http (list article);
  (** the [idlist] of the PubMed Central index answer *)
  get_esearch : string → http (list string)
}.

(** Computations that issue requests: a state monad over the log of the
    URLs requested so far. *)
Definition M (A : Type) : Type := list string → A * list string.

#[global] Instance M_ret : MRet M := λ A a log, (a, log).
#[global] Instance M_bind : MBind M :=
  λ A B f m log, let '(a, log') := m log in f a log'.

(** [requests.get(url)] followed by [raise_for_status] and the parse *)
Definition request {A} (serve : string → http A) (u : string) : M (http A) :=
  λ log, (serve u, log ++ [u]).

(** the value and the requests of a computation run on its own *)
Definition run {A} (m : M A) : A * list string := m [].
Definition value {A} (m : M A) : A := (run m).1.
Definition requests {A} (m : M A) : list string := (run m).2.

(** ** The source adapters *)

Definition error_record (u msg : string) : paper :=
  {| title := Some "Error fetching paper"; authors := None; abstract := None;
     publication_date := None; doi := None; url := Some u; source := None;
     error := Some msg; info := None |}.

(** [e.text.strip() if e else fallback] *)
Definition text_or (fallback : string) (e : option string) : string :=
  match e with
  | Some t => Py.strip t
  | None => fallback
  end.

(** [a or b] on two query answers *)
Definition or_else {A} (a b : option A) : option A :=
  match a with
  | Some x => Some x
  | None => b
  end.

(** the author loop of the Nature adapter *)
Definition nature_authors (items : list (option string)) : list string :=
  foldl (λ out item,
           match item with
           | Some name => out ++ [Py.strip name]
           | None => out
           end) [] items.

Definition fetch_nature_paper (e : env) (u : string) : M paper :=
  r ← request (get_nature e) u;
  mret match r with
       | Failed msg => error_record u msg
       | Ok soup =>
           {| title := Some (text_or "Title not found" (n_h1 soup));
              authors := Some match n_author_list soup with
                              | Some items => nature_authors items
                              | None => []
                              end;
              abstract := Some (text_or "Abstract not found"
                                  (or_else (n_abs1_content soup)
                                           (n_abstract_section soup)));
              publication_date :=
                Some (text_or "Publication date not found" (n_time soup));
              doi := Some (text_or "DOI not found" (n_doi soup));
              url := Some u;
              source := Some "Nature";
              error := None; info := None |}
       end.

(** [url.split('/')[-1]]: the text after the last slash *)
Fixpoint last_segment_go (cur s : string) : string :=
  match s with
  | EmptyString => String.rev cur
  | String c t =>
      if Ascii.eqb c "/" then last_segment_go "" t
      else last_segment_go (String c cur) t
  end.
Definition last_segment (u : string) : string := last_segment_go "" u.

(** what [str(e)] is when a query answer is [None] and the code goes on
    to use it *)
Definition no_attribute (a : string) : string :=
  "'NoneType' object has no attribute '" +:+ a +:+ "'".

(** the author loop of the arXiv adapter; a missing [name] raises *)
Fixpoint arxiv_authors (l : list (option string)) (out : list string)
  : option (list string) :=
  match l with
  | [] => Some out
  | Some name :: rest => arxiv_authors rest (out ++ [Py.strip name])
  | None :: _ => None
  end.

Definition fetch_arxiv_paper (e : env) (u : string) : M paper :=
  let api_url := "http://export.arxiv.org/api/query?id_list=" +:+ last_segment u in
  r ← request (get_arxiv e) api_url;
  mret match r with
       | Failed msg => error_record u msg
       | Ok None => error_record u (no_attribute "find")
       | Ok (Some entry) =>
           match a_title entry, arxiv_authors (a_authors entry) [],
                 a_summary entry, a_published entry with
           | Some t, Some names, Some s, Some d =>
               {| title := Some (Py.strip t); authors := Some names;
                  abstract := Some (Py.strip s);
                  publication_date := Some (Py.strip d);
                  doi := None; url := Some u; source := Some "arXiv";
                  error := None; info := None |}
           | _, _, _, _ => error_record u (no_attribute "text")
           end
       end.

(** the author loops of the PubMed Central adapter *)
Definition pubmed_authors (groups : list (list string)) : list string :=
  foldl (λ out group, foldl (λ out name, out ++ [Py.strip name]) out group)
        [] groups.

Definition fetch_pubmed_paper (e : env) (u : string) : M paper :=
  r ← request (get_pubmed e) u;
  mret match r with
       | Failed msg => error_record u msg
       | Ok soup =>
           {| title := Some match p_hgroup soup with
                            | Some (Some h1) => Py.strip h1
                            | _ => ""
                            end;
              authors := Some match p_hgroup soup with
                              | Some _ => pubmed_authors (p_contrib_groups soup)
                              | None => []
                              end;
              abstract := Some (text_or "Abstract not found" (p_abstract soup));
              publication_date :=
                Some (text_or "Publication date not found" (p_time soup));
              doi := None; url := Some u; source := Some "PubMed Central";
              error := None; info := None |}
       end.

Definition unsupported (u domain : string) : paper :=
  {| title := Some "Unsupported source"; authors := None; abstract := None;
     publication_date := None; doi := None; url := Some u; source := None;
     error := Some ("Source " +:+ domain +:+ " is not supported yet");
     info := None |}.

(** [fetch_paper] has no handler of its own: what [urlparse] raises
    leaves the function. The adapters catch everything themselves. *)
Definition fetch_paper (e : env) (u : string) : M (result paper) :=
  match netloc e u with
  | Raise exc => mret (Raise exc)
  | Return domain =>
      if Py.contains "nature.com" domain
      then p ← fetch_nature_paper e u; mret (Return p)
      else if Py.contains "arxiv.org" domain
      then p ← fetch_arxiv_paper e u; mret (Return p)
      else if Py.contains "ncbi.nlm.nih.gov" domain
      then p ← fetch_pubmed_paper e u; mret (Return p)
      else mret (Return (unsupported u domain))
  end.

(** ** [search_papers] *)

Definition search_hit (t link : string) : paper :=
  {| title := Some t; authors := None; abstract := None;
     publication_date := None; doi := None; url := Some link;
     source := Some "Nature"; error := None; info := None |}.

(** The loop over the listing. An element without an [h3] or without the
    tracked link is passed over. A tracked link without [href] raises
    [KeyError] at [link_elem['href']]: the handler around the whole search
    ends the loop, and what was collected so far is returned. *)
Fixpoint search_loop (arts : list article) (results : list paper) : list paper :=
  match arts with
  | [] => results
  | a :: rest =>
      match art_h3 a, art_link a with
      | Some t, Some (Some href) =>
          search_loop rest
            (results ++ [search_hit (Py.strip t) ("https://www.nature.com" +:+ href)])
      | Some _, Some None => results
      | _, _ => search_loop rest results
      end
  end.

Definition nature_search_url (query : string) : string :=
  "https://www.nature.com/search?q=" +:+ query +:+ "&order=relevance&journal=".

Definition search_papers (e : env) (query : string) (max_results : Z)
  : M (list paper) :=
  r ← request (get_search e) (nature_search_url query);
  mret match r with
       | Failed _ => []
       | Ok articles => search_loop (Py.slice_to articles max_results) []
       end.

(** ** [generate_report] *)

Definition nl : string := String "010"%char "".

(** A tally is a Python [dict] from label to count; [items()] lists it in
    insertion order, so it is kept as an association list. *)
Definition tally : Type := list (string * nat).

(** [d[k] = d.get(k, 0) + 1] *)
Fixpoint bump (k : string) (d : tally) : tally :=
  match d with
  | [] => [(k, 1%nat)]
  | (k', n) :: rest =>
      if decide (k = k') then (k', S n) :: rest else (k', n) :: bump k rest
  end.

Definition count_all (labels : list string) (d : tally) : tally :=
  foldl (λ d k, bump k d) d labels.

(** [paper.get("key_info", {}).get(field, [])] *)
Definition info_list (field : key_info → option (list string)) (fallback : list string)
    (p : paper) : list string :=
  match info p with
  | Some ki => default fallback (field ki)
  | None => fallback
  end.

(** [key_info.get("performance_metrics", {}).get(field, 'Not specified')],
    as the f-string prints it *)
Definition info_metric (field : performance_metrics → option metric) (p : paper)
  : string :=
  match info p with
  | Some ki =>
      match performance ki with
      | Some perf =>
          match field perf with
          | Some m => metric_str m
          | None => "Not specified"
          end
      | None => "Not specified"
      end
  | None => "Not specified"
  end.

(** one summary section: its heading, one line per label, a blank line *)
Definition summary_section (heading : string) (d : tally) : string :=
  foldl (λ report '(label, count),
           report +:+ "- " +:+ label +:+ ": " +:+ pretty count +:+ " papers" +:+ nl)
        ("## " +:+ heading +:+ nl +:+ nl) d
  +:+ nl.

(** the subsection of paper number [i] *)
Definition paper_section (i : nat) (p : paper) : string :=
  "### " +:+ pretty i +:+ ". " +:+ default "No title" (title p) +:+ nl +:+ nl +:+
  "- **Source**: " +:+ default "Unknown" (source p) +:+ nl +:+
  "- **URL**: " +:+ default "No URL" (url p) +:+ nl +:+
  "- **Authors**: " +:+ Py.join ", " (default ["Unknown"] (authors p)) +:+ nl +:+
  "- **Publication Date**: " +:+ default "Unknown" (publication_date p) +:+ nl +:+
  "- **DEA Types**: " +:+ Py.join ", " (info_list dea_type ["Not specified"] p) +:+ nl +:+
  "- **Materials**: " +:+ Py.join ", " (info_list materials ["Not specified"] p) +:+ nl +:+
  "- **Performance Metrics**:" +:+ nl +:+
  "  - Strain: " +:+ info_metric strain p +:+ nl +:+
  "  - Energy Density: " +:+ info_metric energy_density p +:+ nl +:+
  "  - Response Time: " +:+ info_metric response_time p +:+ nl +:+
  "- **Applications**: " +:+ Py.join ", " (info_list applications ["Not specified"] p) +:+ nl +:+
  nl.

(** [for i, paper in enumerate(papers, 1)] *)
Fixpoint paper_sections (i : nat) (papers : list paper) : string :=
  match papers with
  | [] => ""
  | p :: rest => paper_section i p +:+ paper_sections (S i) rest
  end.

(** [now] is [datetime.now().strftime('%Y-%m-%d %H:%M:%S')]. *)
Definition generate_report (now : string) (papers : list paper) : string :=
  "# DEA Research Report" +:+ nl +:+ nl +:+
  "Generated on: " +:+ now +:+ nl +:+ nl +:+
  "Total papers analyzed: " +:+ pretty (length papers) +:+ nl +:+ nl +:+
  summary_section "Sources"
    (foldl (λ d p, bump (default "Unknown" (source p)) d) [] papers) +:+
  summary_section "DEA Types"
    (foldl (λ d p, count_all (info_list dea_type [] p) d) [] papers) +:+
  summary_section "Materials"
    (foldl (λ d p, count_all (info_list materials [] p) d) [] papers) +:+
  summary_section "Applications"
    (foldl (λ d p, count_all (info_list applications [] p) d) [] papers) +:+
  "## Papers" +:+ nl +:+ nl +:+
  paper_sections 1 papers.

(** ** [process_papers]: fetch, annotate, report *)

Definition with_info (p : paper) (ki : key_info) : paper :=
  {| title := title p; authors := authors p; abstract := abstract p;
     publication_date := publication_date p; doi := doi p; url := url p;
     source := source p; error := error p; info := Some ki |}.

(** [if "error" not in paper: paper["key_info"] = extract_key_info(paper)] *)
Definition annotate (p : paper) : paper :=
  if has_error p then p else with_info p (extract_key_info p).

(** The loop of [process_papers]. It has no handler either: when
    [fetch_paper] raises, the loop is left and nothing is saved. *)
Fixpoint fetch_all (e : env) (urls : list string) (papers : list paper)
  : M (result (list paper)) :=
  match urls with
  | [] => mret (Return papers)
  | u :: rest =>
      r ← fetch_paper e u;
      match r with
      | Return p => fetch_all e rest (papers ++ [annotate p])
      | Raise exc => mret (Raise exc)
      end
  end.

(** the papers that are saved and the report that is written *)
Definition process_papers (e : env) (now : string) (urls : list string)
  : M (result (list paper * string)) :=
  r ← fetch_all e urls [];
  mret match r with
       | Return papers => Return (papers, generate_report now papers)
       | Raise exc => Raise exc
       end.

(** ** The web job of [web_pager.py]

    The module keeps three globals: [search_thread], [stop_event] and
    [results]. A thread runs [search_worker]; the handlers [start], [stop]
    and [get_results] run in the server. Threads are interleaved between
    statements, so the worker is cut into steps at each access to the
    shared state and at each request. *)

(** an entry of [results] *)
Record item : Type := {
  item_title : string;
  item_authors : list string;
  item_url : string
}.

(** where a worker stands in [search_worker] *)
Inductive pc : Type :=
| Enter                                  (** before [results.clear()] *)
| CallSearch                             (** before [tool.search_papers] *)
| Loop1 (todo : list paper)              (** head of the loop of step 1 *)
| Append1 (p : paper) (todo : list paper) (** step 1, test passed *)
| Gate2                                  (** the test that guards step 2 *)
| CallIndex                              (** before the index request *)
| Loop2 (todo : list string)             (** head of the loop of step 2 *)
| Fetch2 (id : string) (todo : list string) (** step 2, test passed *)
| Append2 (p : paper) (u : string) (todo : list string) (** fetched, no error *)
| Finished.

(** a thread running [search_worker]: its locals and where it stands *)
Record worker : Type := {
  query : string;
  max_results : Z;
  found : Z;
  at_pc : pc
}.

Definition goto (w : worker) (l : pc) : worker :=
  {| query := query w; max_results := max_results w; found := found w;
     at_pc := l |}.

(** [found += 1] *)
Definition counted (w : worker) (l : pc) : worker :=
  {| query := query w; max_results := max_results w; found := found w + 1;
     at_pc := l |}.

Definition pmc_url (q : string) (n : Z) : string :=
  "https://eutils.ncbi.nlm.nih.gov/entrez/eutils/esearch.fcgi?db=pmc&term="
  +:+ q +:+ "&retmax=" +:+ pretty n +:+ "&retmode=json".

Definition pmc_article_url (id : string) : string :=
  "https://www.ncbi.nlm.nih.gov/pmc/articles/PMC" +:+ id +:+ "/".

(** [stop_event.is_set() or found >= max_results] *)
Definition must_break (stop : bool) (w : worker) : bool :=
  stop || (max_results w <=? found w).

(** One step of [search_worker]. It reads the flag [stop], may change the
    shared buffer [res], and moves on. A [KeyError] in a loop body is
    caught by the handler of its step, which ends the step. The pauses
    ([time.sleep]) change nothing, and the constructor of the tool, which
    only creates the output directory, is left out. *)
Definition search_worker_step (e : env) (stop : bool) (res : list item) (w : worker)
  : list item * worker :=
  match at_pc w with
  | Enter =>
      ([], {| query := query w; max_results := Z.min (max_results w) 1000;
              found := 0; at_pc := CallSearch |})
  | CallSearch =>
      (res, goto w (Loop1 (value (search_papers e (query w) (max_results w)))))
  | Loop1 [] => (res, goto w Gate2)
  | Loop1 (p :: todo) =>
      (res, goto w (if must_break stop w then Gate2 else Append1 p todo))
  | Append1 p todo =>
      match title p, url p with
      | Some t, Some u =>
          (res ++ [{| item_title := t; item_authors := default [] (authors p);
                      item_url := u |}],
           counted w (Loop1 todo))
      | _, _ => (res, goto w Gate2)
      end
  | Gate2 =>
      (res, goto w (if negb stop && (found w <? max_results w)
                    then CallIndex else Finished))
  | CallIndex =>
      match get_esearch e (pmc_url (query w) (max_results w)) with
      | Failed _ => (res, goto w Finished)
      | Ok ids =>
          (res, goto w (Loop2 (Py.slice_to ids (max_results w - found w))))
      end
  | Loop2 [] => (res, goto w Finished)
  | Loop2 (id :: todo) =>
      (res, goto w (if must_break stop w then Finished else Fetch2 id todo))
  | Fetch2 id todo =>
      let u := pmc_article_url id in
      let p := value (fetch_pubmed_paper e u) in
      (res, goto w (if has_error p then Loop2 todo else Append2 p u todo))
  | Append2 p u todo =>
      match title p with
      | Some t =>
          (res ++ [{| item_title := t; item_authors := default [] (authors p);
                      item_url := u |}],
           counted w (Loop2 todo))
      | None => (res, goto w Finished)
      end
  | Finished => (res, w)
  end.

(** a worker that has not returned yet *)
Definition running (w : worker) : bool :=
  match at_pc w with
  | Finished => false
  | _ => true
  end.

(** a worker that has passed the test of a loop and has not appended yet *)
Definition committed (w : worker) : bool :=
  match at_pc w with
  | Append1 _ _ | Fetch2 _ _ | Append2 _ _ _ => true
  | _ => false
  end.

(** The process: the flag, the buffer, every thread started so far (the
    global [search_thread] only names the last one), and a clock that
    counts the steps taken; the network may answer differently as time
    goes by. *)
Record job : Type := {
  stop_event : bool;
  results : list item;
  threads : list worker;
  clock : nat
}.

Inductive event : Type :=
| Start (q : string) (n : Z)   (** POST /start with this query and bound *)
| Stop                         (** POST /stop *)
| Run (i : nat).               (** thread [i] takes its next step *)

Definition spawn (q : string) (n : Z) : worker :=
  {| query := q; max_results := n; found := 0; at_pc := Enter |}.

(** the handler [start] *)
Definition start (q : string) (n : Z) (s : job) : job :=
  {| stop_event := false; results := results s;
     threads := threads s ++ [spawn q n]; clock := S (clock s) |}.

(** the handler [stop] *)
Definition stop (s : job) : job :=
  {| stop_event := true; results := results s; threads := threads s;
     clock := S (clock s) |}.

(** the handler [get_results] *)
Definition get_results (s : job) : list item := results s.

Definition step (net : nat → env) (ev : event) (s : job) : job :=
  match ev with
  | Start q n => start q n s
  | Stop => stop s
  | Run i =>
      match threads s !! i with
      | Some w =>
          let '(res, w') := search_worker_step (net (clock s)) (stop_event s) (results s) w in
          {| stop_event := stop_event s; results := res;
             threads := <[i := w']> (threads s); clock := S (clock s) |}
      | None => s
      end
  end.

(** a schedule, run from left to right *)
Definition exec (net : nat → env) (tr : list event) (s : job) : job :=
  foldl (λ s ev, step net ev s) s tr.

(** the module as loaded: no thread, flag clear, empty buffer *)
Definition idle : job :=
  {| stop_event := false; results := []; threads := []; clock := 0 |}.

(** how many workers of a job are running *)
Definition running_count (s : job) : nat :=
  length (filter (λ w, running w = true) (threads s)).

Definition is_start (ev : event) : bool :=
  match ev with
  | Start _ _ => true
  | _ => false
  end.

(** ** Concrete inputs used by the examples below *)

(** [netloc] for a URL of the form [scheme://host/path] *)
Fixpoint after_slashes (s : string) : string :=
  match s with
  | String "/" (String "/" t) => t
  | String _ t => after_slashes t
  | EmptyString => EmptyString
  end.
Fixpoint until_slash (s : string) : string :=
  match s with
  | String c t => if Ascii.eqb c "/" then "" else String c (until_slash t)
  | EmptyString => EmptyString
  end.
Definition simple_netloc (u : string) : string := until_slash (after_slashes u).

Fixpoint has_char (c : ascii) (s : string) : bool :=
  match s with
  | EmptyString => false
  | String d t => Ascii.eqb c d || has_char c t
  end.

(** [urlparse] on such a URL: [urlsplit] raises [ValueError] when the host
    part has one square bracket and not the other, and gives the host
    part of a URL without brackets as it stands *)
Definition checked_netloc (u : string) : result string :=
  let host := simple_netloc u in
  if xorb (has_char "[" host) (has_char "]" host)
  then Raise "Invalid IPv6 URL"
  else Return host.

(** every markup query of the Nature adapter finds nothing *)
Definition nature_nothing : nature_page :=
  {| n_h1 := None; n_author_list := None; n_abs1_content := None;
     n_abstract_section := None; n_time := None; n_doi := None |}.

(** every markup query of the PubMed Central adapter finds nothing *)
Definition pubmed_nothing : pubmed_page :=
  {| p_hgroup := None; p_contrib_groups := []; p_abstract := None;
     p_time := None |}.

Definition listed (t href : string) : article :=
  {| art_h3 := Some t; art_link := Some (Some href) |}.

(** a network on which every document is there and every markup query
    finds nothing, except that a search lists two articles named after
    the address requested, and the index lists two identifiers *)
Definition bare : env :=
  {| netloc := checked_netloc;
     get_nature := λ _, Ok nature_nothing;
     get_arxiv := λ _, Ok None;
     get_pubmed := λ _, Ok pubmed_nothing;
     get_search := λ u, Ok [listed (u +:+ " first") "/a1"; listed (u +:+ " second") "/a2"];
     get_esearch := λ _, Ok ["7"; "8"] |}.

(** ** Notions used in the statements *)

Definition unannotated : key_info :=
  {| dea_type := Some []; materials := Some [];
     performance := Some {| strain := Some PyNone; energy_density := Some PyNone;
                            response_time := Some PyNone |};
     applications := Some [] |}.

(** a paper dictionary with no key at all *)
Definition empty_dict : paper :=
  {| title := None; authors := None; abstract := None; publication_date := None;
     doi := None; url := None; source := None; error := None; info := None |}.

(** the host matches none of the three publisher domains *)
Definition unmatched (domain : string) : Prop :=
  Py.contains "nature.com" domain = false
  ∧ Py.contains "arxiv.org" domain = false
  ∧ Py.contains "ncbi.nlm.nih.gov" domain = false.




(** what the loop of [search_papers] makes of one listing element that
    has both its heading and its link with an address *)
Definition hit_of (a : article) : option paper :=
  match art_h3 a, art_link a with
  | Some t, Some (Some href) =>
      Some (search_hit (Py.strip t) ("https://www.nature.com" +:+ href))
  | _, _ => None
  end.

(** the one paper of a batch run on a Nature page where no markup query
    finds anything *)
Definition bare_batch : list paper * string :=
  match value (process_papers bare "2024-01-01 00:00:00"
                 ["https://www.nature.com/articles/s41467-024-48243-y"]) with
  | Return out => out
  | Raise _ => ([], "")
  end.

#[global] Instance event_eq_dec : EqDecision event.
Proof. solve_decision. Defined.

(** how many steps thread [i] takes in a schedule *)
Definition turns (i : nat) (tr : list event) : nat :=
  length (filter (λ ev, ev = Run i) tr).

(** how many times [start] is called in a schedule *)
Definition starts (tr : list event) : nat :=
  length (filter (λ ev, is_start ev = true) tr).

(** a schedule in which [start] is not called *)
Definition no_start (tr : list event) : Prop :=
  Forall (λ ev, is_start ev = false) tr.

(** what a worker may still add once the flag is set: one item if it has
    passed the test of its loop, nothing otherwise *)
Definition debt (w : worker) : nat := if committed w then 1%nat else 0%nat.

(** the items the workers of a job may still add once the flag is set *)
Definition pending (s : job) : nat := sum_list_with debt (threads s).

(** steps a worker needs at most to return once the flag is set *)
Definition rank (w : worker) : nat :=
  match at_pc w with
  | Enter => 4
  | CallSearch | Append1 _ _ | Fetch2 _ _ => 3
  | Loop1 _ | CallIndex | Append2 _ _ _ => 2
  | Gate2 | Loop2 _ => 1
  | Finished => 0
  end%nat.

(** a run with a bound of 5: [stop] comes after the worker has passed the
    test of its loop for the second article, which it then still appends *)
Definition late_stop : list event :=
  [Run 0; Run 0; Run 0; Run 0; Run 0; Stop].


(** a second [start], with another query, after the first worker has
    appended its first item *)
Definition first_run : list event :=
  [Start "x" 10; Run 0; Run 0; Run 0; Run 0].
Definition second_run : list event :=
  [Run 1; Run 1; Run 1; Run 1; Run 0; Run 0; Run 1; Run 1].

(** ** [export_csv]

    [csv.writer] with its default dialect: fields separated by a comma,
    records ended by CR LF, a field enclosed in quotes when it holds a
    comma, a quote, a CR or a LF, and each quote inside it doubled. *)

Definition dquote : ascii := ascii_of_nat 34.
Definition crlf : string := String (ascii_of_nat 13) (String (ascii_of_nat 10) "").

Definition csv_special (c : ascii) : bool :=
  Ascii.eqb c ","%char || Ascii.eqb c dquote
  || Ascii.eqb c (ascii_of_nat 13) || Ascii.eqb c (ascii_of_nat 10).

Fixpoint has_special (s : string) : bool :=
  match s with
  | EmptyString => false
  | String c t => csv_special c || has_special t
  end.

Fixpoint double_quotes (s : string) : string :=
  match s with
  | EmptyString => EmptyString
  | String c t =>
      if Ascii.eqb c dquote then String c (String c (double_quotes t))
      else String c (double_quotes t)
  end.

Definition csv_field (s : string) : string :=
  if has_special s
  then String dquote (double_quotes s +:+ String dquote "")
  else s.

(** [writer.writerow(fields)]: a record made of one empty field is
    written as a pair of quotes *)
Definition writerow (fields : list string) : string :=
  match fields with
  | [EmptyString] => String dquote (String dquote crlf)
  | _ => Py.join "," (csv_field <$> fields) +:+ crlf
  end.

(** the record of one entry of the buffer *)
Definition item_row (it : item) : string :=
  writerow [item_title it; Py.join ", " (item_authors it); item_url it].

(** the body of the answer of the handler [export_csv] *)
Definition export_csv (res : list item) : string :=
  foldl (λ output it, output +:+ item_row it)
        (writerow ["Title"; "Authors"; "URL"]) res.

(** ** The flattening of [save_to_csv]

    [save_to_csv] works on the dictionaries as such, so they are given
    here as lists of keys and values in insertion order. *)

#[warnings="-register-all"]
Inductive pyval : Type :=
| VNone
| VStr (s : string)
| VList (l : list string)
| VDict (d : list (string * pyval)).

Definition pydict : Type := list (string * pyval).

(** [d[k] = v]: the value of a key that is there is replaced where it
    stands, a new key goes to the end *)
Fixpoint dict_set (k : string) (v : pyval) (d : pydict) : pydict :=
  match d with
  | [] => [(k, v)]
  | (k', v') :: rest =>
      if decide (k = k') then (k', v) :: rest else (k', v') :: dict_set k v rest
  end.

(** the loop over [item.items()] *)
Definition flatten (item : pydict) : pydict :=
  foldl (λ flat_item '(key, value),
           match value with
           | VDict sub =>
               foldl (λ flat_item '(sub_key, sub_value),
                        dict_set (key +:+ "_" +:+ sub_key) sub_value flat_item)
                     flat_item sub
           | _ => dict_set key value flat_item
           end) [] item.

(** [flattened_data] *)
Definition flatten_all (data : list pydict) : list pydict := flatten <$> data.

Definition entry {A} (k : string) (f : A → pyval) (o : option A) : pydict :=
  match o with
  | Some a => [(k, f a)]
  | None => []
  end.

Definition metric_val (m : metric) : pyval :=
  match m with
  | PyNone => VNone
  | PyStr s => VStr s
  end.

Definition metrics_dict (m : performance_metrics) : pydict :=
  entry "strain" metric_val (strain m)
  ++ entry "energy_density" metric_val (energy_density m)
  ++ entry "response_time" metric_val (response_time m).

Definition key_info_dict (ki : key_info) : pydict :=
  entry "dea_type" VList (dea_type ki)
  ++ entry "materials" VList (materials ki)
  ++ entry "performance_metrics" (λ m, VDict (metrics_dict m)) (performance ki)
  ++ entry "applications" VList (applications ki).

(** a paper as the dictionary it is: the keys it has, in the order in
    which the adapters and [process_papers] set them *)
Definition paper_dict (p : paper) : pydict :=
  entry "title" VStr (title p)
  ++ entry "authors" VList (authors p)
  ++ entry "abstract" VStr (abstract p)
  ++ entry "publication_date" VStr (publication_date p)
  ++ entry "doi" VStr (doi p)
  ++ entry "url" VStr (url p)
  ++ entry "source" VStr (source p)
  ++ entry "error" VStr (error p)
  ++ entry "key_info" (λ ki, VDict (key_info_dict ki)) (info p).

(** ** Further notions used in the statements *)

(** the entries of a dictionary with the nested ones brought up one
    level under prefixed names *)
Definition flat_view (d : pydict) : pydict :=
  d ≫= (λ '(key, value),
          match value with
          | VDict sub => (λ '(sub_key, sub_value), (key +:+ "_" +:+ sub_key, sub_value)) <$> sub
          | _ => [(key, value)]
          end).

(** [d.get(k, 0)] on a tally *)
Fixpoint tally_get (k : string) (d : tally) : nat :=
  match d with
  | [] => 0%nat
  | (k', n) :: rest => if decide (k = k') then n else tally_get k rest
  end.

(** how often a label occurs in a list *)
Definition occurrences (k : string) (labels : list string) : nat :=
  length (filter (λ l, l = k) labels).

(** the sources the adapters name *)
Definition source_names : list string := ["Nature"; "arXiv"; "PubMed Central"].

Fixpoint has_digit (s : string) : bool :=
  match s with
  | EmptyString => false
  | String c t => Py.is_digit c || has_digit t
  end.

(** every thread of the job is past the [results.clear()] of its run *)
Definition all_entered (s : job) : Prop :=
  Forall (λ w, at_pc w ≠ Enter) (threads s).

(** a schedule that gives thread [i] a number of turns in a row *)
Definition solo (i k : nat) : list event := replicate k (Run i).

(** a network on which the search page lists an article whose heading is
    padded with blanks, and an article page has a second author without
    a name link *)
Definition padded : env :=
  {| netloc := checked_netloc;
     get_nature := λ _, Ok {| n_h1 := Some "  A DEA for soft robots ";
                              n_author_list := Some [Some " A. Author "; None];
                              n_abs1_content := None;
                              n_abstract_section := Some "A dielectric elastomer actuator made of VHB.";
                              n_time := None; n_doi := None |};
     get_arxiv := λ _, Failed "503 Server Error";
     get_pubmed := λ _, Ok pubmed_nothing;
     get_search := λ _, Ok [listed "  First  " "/a1";
                            {| art_h3 := None; art_link := Some (Some "/a2") |};
                            listed "Third" "/a3"];
     get_esearch := λ _, Failed "timeout" |}.

(** the label under which the report counts the source of a paper *)
Definition source_label (p : paper) : string := default "Unknown" (source p).

(** two workers under a set flag: both were started, the first has passed
    the test of its loop, and then [stop] was called *)
Definition two_stopped : job :=
  exec (λ _, bare)
       [Start "x" 10; Run 0; Run 0; Run 0; Start "y" 10; Run 1; Run 1; Run 1; Stop]
       idle.

(** the records that follow the header in an export *)
Definition item_rows (res : list item) : string :=
  foldl (λ output it, output +:+ item_row it) "" res.

(** thread [i] of the job returns when it is given [k] turns in a row *)
Definition returns_within (net : nat → env) (i k : nat) (s : job) : Prop :=
  ∃ w, threads (exec net (solo i k) s) !! i = Some w ∧ running w = false.

(** a hit as [search_papers] lists it *)
Definition hit_shaped (p : paper) : Prop :=
  ∃ t href, p = search_hit t ("https://www.nature.com" +:+ href).

(** the queries and bounds [start] was called with in a schedule *)
Definition started (tr : list event) : list (string * Z) :=
  omap (λ ev, match ev with
              | Start q n => Some (q, n)
              | _ => None
              end) tr.

(** an entry of the buffer made from a hit of the Nature search: for a
    query and bound that [start] was called with, the search answered at
    some time with a hit that has the title and the address of the entry;
    the entry has no author and its address is under
    https://www.nature.com *)
Definition nature_item (net : nat → env) (runs : list (string * Z)) (it : item)
  : Prop :=
  ∃ q n t p,
    (q, n) ∈ runs
    ∧ p ∈ value (search_papers (net t) q (Z.min n 1000))
    ∧ title p = Some (item_title it)
    ∧ url p = Some (item_url it)
    ∧ item_authors it = []
    ∧ ∃ href, item_url it = "https://www.nature.com" +:+ href.

(** an entry of the buffer made from a PubMed Central article: for a
    query and bound that [start] was called with, the index answered at
    some time with a list that holds the identifier [id], the article page
    of [id] was fetched without error at some time, and the entry has the
    title and the authors of that record and the address of the article *)
Definition pmc_item (net : nat → env) (runs : list (string * Z)) (it : item)
  : Prop :=
  ∃ q n t ids id t',
    let p := value (fetch_pubmed_paper (net t') (pmc_article_url id)) in
    (q, n) ∈ runs
    ∧ get_esearch (net t) (pmc_url q (Z.min n 1000)) = Ok ids
    ∧ id ∈ ids
    ∧ error p = None
    ∧ title p = Some (item_title it)
    ∧ item_authors it = default [] (authors p)
    ∧ item_url it = pmc_article_url id.

(** what a worker holds to work on. Its query and bound are those of a
    call of [start], the bound clamped once the worker has entered; in
    step 1 it holds hits that the search gave for them, in step 2
    identifiers that the index gave for them, and after a fetch the
    record of the article of such an identifier, which has no error. *)
Definition carries_hits (net : nat → env) (runs : list (string * Z)) (w : worker)
  : Prop :=
  (∃ n, (query w, n) ∈ runs
        ∧ max_results w = match at_pc w with
                          | Enter => n
                          | _ => Z.min n 1000
                          end)
  ∧ match at_pc w with
    | Loop1 todo =>
        ∃ t, todo ⊆ value (search_papers (net t) (query w) (max_results w))
    | Append1 p todo =>
        ∃ t, p :: todo ⊆ value (search_papers (net t) (query w) (max_results w))
    | Loop2 todo =>
        ∃ t ids, get_esearch (net t) (pmc_url (query w) (max_results w)) = Ok ids
                 ∧ todo ⊆ ids
    | Fetch2 id todo =>
        ∃ t ids, get_esearch (net t) (pmc_url (query w) (max_results w)) = Ok ids
                 ∧ id :: todo ⊆ ids
    | Append2 p u todo =>
        ∃ t ids id t',
          get_esearch (net t) (pmc_url (query w) (max_results w)) = Ok ids
          ∧ id :: todo ⊆ ids
          ∧ u = pmc_article_url id
          ∧ p = value (fetch_pubmed_paper (net t') u)
          ∧ error p = None
    | _ => True
    end.

(** a listing element on which the loop of [search_papers] raises
    [KeyError]: it has a heading and a tracked link, and the link has no
    address *)
Definition raises_key_error (a : article) : bool :=
  match art_h3 a, art_link a with
  | Some _, Some None => true
  | _, _ => false
  end.

(** the listing elements before the first one that raises [KeyError] *)
Fixpoint until_key_error (arts : list article) : list article :=
  match arts with
  | [] => []
  | a :: rest => if raises_key_error a then [] else a :: until_key_error rest
  end.

(** the count of a worker is within its quota: before its first step it
    is zero; after it the bound is at most 1000, the count is between zero
    and the bound (zero for a negative bound), and strictly below the
    bound when the worker has passed the test of a loop *)
Definition found_within (w : worker) : Prop :=
  match at_pc w with
  | Enter => found w = 0
  | _ =>
      max_results w ≤ 1000
      ∧ 0 ≤ found w ≤ Z.max 0 (max_results w)
      ∧ (committed w = true → found w < max_results w)
  end.

(** [stop] was called in the schedule and [start] was not called after it *)
Definition stopped_last (tr : list event) : Prop :=
  ∃ before after, tr = before ++ Stop :: after ∧ no_start after.

(** an entry with two authors and a quote in its title *)
Definition quoted_item : item :=
  {| item_title := String dquote "Soft" +:+ String dquote " actuators";
     item_authors := ["A. Author"; "B. Author"];
     item_url := "https://www.nature.com/a1" |}.

(** a network on which every request fails *)
Definition down : env :=
  {| netloc := checked_netloc;
     get_nature := λ _, Failed "timed out";
     get_arxiv := λ _, Failed "timed out";
     get_pubmed := λ _, Failed "timed out";
     get_search := λ _, Failed "timed out";
     get_esearch := λ _, Failed "timed out" |}.

(** * Properties *)

(** ** Keyword extraction *)

Section Extraction.

Implicit Types (p q : paper) (text : string) (vocab : list string).

(** The loop with [append] computes a filter of the vocabulary. *)
Lemma scan_vocabulary_filter vocab text :
  scan_vocabulary vocab text
  = filter (λ v, Py.contains (Py.lower v) text = true) vocab.
Proof.
  unfold scan_vocabulary.
  enough (∀ out,
    foldl (λ out v, if Py.contains (Py.lower v) text then out ++ [v] else out)
          out vocab
    = out ++ filter (λ v, Py.contains (Py.lower v) text = true) vocab) as H
    by apply (H []).
  induction vocab as [|v vocab IH]; intros out; simpl.
  - by rewrite app_nil_r.
  - rewrite IH, filter_cons.
    destruct (Py.contains (Py.lower v) text) eqn:Hv.
    + rewrite decide_True by done. by rewrite <- app_assoc.
    + rewrite decide_False by done. done.
Qed.

Lemma scan_vocabulary_sublist vocab text :
  scan_vocabulary vocab text `sublist_of` vocab.
Proof. rewrite scan_vocabulary_filter. apply sublist_filter. Qed.

Lemma scan_vocabulary_NoDup vocab text :
  NoDup vocab → NoDup (scan_vocabulary vocab text).
Proof.
  intros Hnd. eapply sublist_NoDup; [done | apply scan_vocabulary_sublist].
Qed.

Lemma dea_types_NoDup : NoDup dea_types.
Proof. compute_done. Qed.
Lemma materials_vocabulary_NoDup : NoDup materials_vocabulary.
Proof. compute_done. Qed.
Lemma applications_vocabulary_NoDup : NoDup applications_vocabulary.
Proof. compute_done. Qed.

Lemma lower_char_idemp c : Py.lower_char (Py.lower_char c) = Py.lower_char c.
Proof. by destruct c as [[] [] [] [] [] [] [] []]. Qed.

Lemma lower_idemp text : Py.lower (Py.lower text) = Py.lower text.
Proof.
  induction text as [|c t IH]; simpl; [done|].
  by rewrite lower_char_idemp, IH.
Qed.

(** [findall] never runs out of fuel: every round works on a shorter
    subject, so any fuel above the length of the subject gives the same
    list. *)
Lemma findall_go_enough (r : Re.regex) (f1 f2 : nat) (s : string) :
  (Strings.String.length s < f1)%nat → (Strings.String.length s < f2)%nat →
  Re.findall_go f1 r s = Re.findall_go f2 r s.
Proof.
  revert f2 s. induction f1 as [|f1 IH]; intros f2 s H1 H2; [lia|].
  destruct f2 as [|f2]; [lia|]. simpl.
  assert (Htail : match s with
                  | EmptyString => []
                  | String _ t => Re.findall_go f1 r t
                  end
                  = match s with
                    | EmptyString => []
                    | String _ t => Re.findall_go f2 r t
                    end).
  { destruct s as [|c t]; [done|]. simpl in H1, H2. apply IH; lia. }
  destruct (Re.match_here r s) as [[g rest]|]; [|done].
  f_equal.
  destruct (Nat.ltb_spec (Strings.String.length rest) (Strings.String.length s));
    [apply IH; lia|done].
Qed.

(** What [extract_key_info] returns is a function of the lower-cased
    abstract, an absent abstract counting as the empty one. *)
Lemma extract_key_info_text p q :
  Py.lower (default "" (abstract p)) = Py.lower (default "" (abstract q)) →
  extract_key_info p = extract_key_info q.
Proof. unfold extract_key_info. by intros ->. Qed.

End Extraction.

(** C6, as amended. For the abstract of the scenario, [extract_key_info]
    lists the DEA types "dielectric elastomer actuator" and "dielectric
    elastomer" only, finds the strain "150%" and the energy density
    "800 J/kg", and lists the application "soft robot". *)
Theorem scenario_annotation :
  extract_key_info (abstract_only scenario_abstract)
  = {| dea_type := Some ["dielectric elastomer actuator"; "dielectric elastomer"];
       materials := Some [];
       performance := Some {| strain := Some (PyStr "150%");
                              energy_density := Some (PyStr "800 J/kg");
                              response_time := Some PyNone |};
       applications := Some ["soft robot"] |}.
Proof. vm_compute. reflexivity. Qed.

(** C6, as stated, fails: "DEA" is not among the DEA types of the
    scenario, because the lower-cased abstract has no substring "dea"
    (the three words of "dielectric elastomer actuator" are spelled out). *)
Lemma scenario_dea_type_lacks_DEA :
  ¬ ∃ types,
      dea_type (extract_key_info (abstract_only scenario_abstract)) = Some types
      ∧ "dielectric elastomer actuator" ∈ types
      ∧ "DEA" ∈ types
      ∧ "dielectric elastomer" ∈ types.
Proof.
  intros (types & Htypes & _ & Hdea & _).
  vm_compute in Htypes. injection Htypes as <-.
  revert Hdea. compute_done.
Qed.

(** C9. [extract_key_info] is a function of the abstract alone, an absent
    abstract counting as the empty string: two papers with the same
    abstract get the same annotation. For the empty abstract every list is
    empty and every metric is [None]. The response time is [None] for
    every paper. *)
Theorem extract_key_info_deterministic (p q : paper) :
  (default "" (abstract p) = default "" (abstract q) →
   extract_key_info p = extract_key_info q)
  ∧ (default "" (abstract p) = "" → extract_key_info p = unannotated)
  ∧ (response_time <$> performance (extract_key_info p) = Some (Some PyNone)).
Proof.
  split; [|split].
  - intros H. apply extract_key_info_text. by rewrite H.
  - intros H. unfold extract_key_info. rewrite H. reflexivity.
  - reflexivity.
Qed.

Lemma extract_key_info_deterministic_witness :
  extract_key_info (abstract_only "") = extract_key_info empty_dict
  ∧ extract_key_info (abstract_only "") = unannotated.
Proof.
  split.
  - apply (proj1 (extract_key_info_deterministic (abstract_only "") empty_dict)).
    reflexivity.
  - apply (proj1 (proj2 (extract_key_info_deterministic (abstract_only "") empty_dict))).
    reflexivity.
Defined.

(** C10. For every paper, each of the three lists of [extract_key_info]
    is a sublist of its vocabulary (the vocabulary's own strings, in the
    vocabulary's order) without duplicates, and it does not change when
    the abstract is lower-cased. *)
Theorem extract_key_info_lists (p : paper) :
  ∃ types mats apps,
    dea_type (extract_key_info p) = Some types
    ∧ materials (extract_key_info p) = Some mats
    ∧ applications (extract_key_info p) = Some apps
    ∧ (types `sublist_of` dea_types ∧ NoDup types)
    ∧ (mats `sublist_of` materials_vocabulary ∧ NoDup mats)
    ∧ (apps `sublist_of` applications_vocabulary ∧ NoDup apps)
    ∧ extract_key_info (abstract_only (Py.lower (default "" (abstract p))))
      = extract_key_info p.
Proof.
  eexists _, _, _. repeat split; try reflexivity.
  - apply scan_vocabulary_sublist.
  - apply scan_vocabulary_NoDup, dea_types_NoDup.
  - apply scan_vocabulary_sublist.
  - apply scan_vocabulary_NoDup, materials_vocabulary_NoDup.
  - apply scan_vocabulary_sublist.
  - apply scan_vocabulary_NoDup, applications_vocabulary_NoDup.
  - apply extract_key_info_text. simpl. apply lower_idemp.
Qed.

(** ** Dispatch and the source adapters *)

(** what [urlparse] raises leaves [fetch_paper], and no request is made *)
Lemma fetch_paper_propagates (e : env) (u exc : string) :
  netloc e u = Raise exc → run (fetch_paper e u) = (Raise exc, []).
Proof. intros H. unfold run, fetch_paper. by rewrite H. Qed.

(** For a URL that [urlparse] accepts and whose host matches no publisher
    domain, [fetch_paper] returns the record with the error "Source
    <domain> is not supported yet" and without a source, and it issues no
    request. *)
Lemma fetch_paper_unsupported (e : env) (u domain : string) :
  netloc e u = Return domain → unmatched domain →
  run (fetch_paper e u) = (Return (unsupported u domain), [])
  ∧ error (unsupported u domain)
    = Some ("Source " +:+ domain +:+ " is not supported yet")
  ∧ source (unsupported u domain) = None.
Proof.
  intros Hd (Hn & Ha & Hp).
  unfold run, fetch_paper. rewrite Hd, Hn, Ha, Hp. done.
Qed.

Lemma fetch_paper_unsupported_witness :
  run (fetch_paper bare "https://example.org/paper/1")
  = (Return (unsupported "https://example.org/paper/1" "example.org"), []).
Proof.
  apply (fetch_paper_unsupported bare "https://example.org/paper/1" "example.org").
  - reflexivity.
  - vm_compute. done.
Defined.

(** C5 fails at "never raises". The call of [urlparse] in [fetch_paper]
    stands outside every handler, so on an address that [urlparse]
    rejects (here a host with an opening square bracket and no closing
    one, which matches no publisher domain) [fetch_paper] raises
    [ValueError] and returns no record. *)
Theorem fetch_paper_raises :
  simple_netloc "https://[example.org/paper" = "[example.org"
  ∧ unmatched "[example.org"
  ∧ netloc bare "https://[example.org/paper" = Raise "Invalid IPv6 URL"
  ∧ run (fetch_paper bare "https://[example.org/paper")
    = (Raise "Invalid IPv6 URL", []).
Proof. vm_compute. done. Qed.









(** the title of the PubMed Central adapter when there is no [hgroup] or
    no [h1] in it: the empty string *)
Lemma fetch_pubmed_title_missing (e : env) (u : string) (soup : pubmed_page) :
  get_pubmed e u = Ok soup →
  p_hgroup soup = None ∨ p_hgroup soup = Some None →
  title (value (fetch_pubmed_paper e u)) = Some "".
Proof.
  intros Hget Hh. unfold value, run, fetch_pubmed_paper, request. simpl.
  rewrite Hget. simpl. by destruct Hh as [-> | ->].
Qed.


(** ** Search *)

(** The loop returns, in page order, the hits of the elements it walked
    through: all of them, or those before the first tracked link without
    an address. *)
Lemma search_loop_prefix (arts : list article) (acc : list paper) :
  ∃ k, search_loop arts acc = acc ++ omap hit_of (take k arts).
Proof.
  revert acc. induction arts as [|a arts IH]; intros acc.
  - exists 0%nat. simpl. by rewrite app_nil_r.
  - assert (Hskip : hit_of a = None →
                    ∃ k, search_loop arts acc = acc ++ omap hit_of (take k (a :: arts))).
    { intros Hnone. destruct (IH acc) as [k Hk]. exists (S k).
      simpl. by rewrite Hnone. }
    simpl. destruct (art_h3 a) as [t|] eqn:Ht, (art_link a) as [[href|]|] eqn:Hl;
      try (apply Hskip; unfold hit_of; by rewrite ?Ht, ?Hl).
    + destruct (IH (acc ++ [search_hit (Py.strip t) ("https://www.nature.com" +:+ href)]))
        as [k Hk].
      exists (S k). rewrite Hk. simpl. unfold hit_of at 2. rewrite Ht, Hl.
      by rewrite <- app_assoc.
    + exists 0%nat. simpl. by rewrite app_nil_r.
Qed.

Lemma length_omap_le {A B} (f : A → option B) (l : list A) :
  (length (omap f l) ≤ length l)%nat.
Proof.
  induction l as [|x l IH]; csimpl; [done|].
  destruct (f x); simpl; lia.
Qed.

(** For a bound that is not negative [search_papers] behaves as its
    documentation says: it issues the one search request; a failed request
    gives the empty list; otherwise the hits are those of the listing
    elements that have a heading and a link, in page order, taken among the
    first [max_results] elements, so there are at most [max_results]. *)
Lemma search_papers_nonnegative (e : env) (query : string) (max_results : Z) :
  0 ≤ max_results →
  requests (search_papers e query max_results) = [nature_search_url query]
  ∧ (∀ msg, get_search e (nature_search_url query) = Failed msg →
            value (search_papers e query max_results) = [])
  ∧ (∀ arts, get_search e (nature_search_url query) = Ok arts →
       ∃ k, value (search_papers e query max_results)
            = omap hit_of (take k (take (Z.to_nat max_results) arts)))
  ∧ (length (value (search_papers e query max_results)) ≤ Z.to_nat max_results)%nat.
Proof.
  intros Hn. unfold requests, value, run, search_papers, request. simpl.
  split; [by destruct (get_search e (nature_search_url query))|].
  split; [by intros msg ->|].
  assert (Hslice : ∀ arts : list article, Py.slice_to arts max_results
                           = take (Z.to_nat max_results) arts).
  { intros arts. unfold Py.slice_to.
    by destruct (Z.leb_spec 0 max_results); [|lia]. }
  split.
  - intros arts ->. simpl. rewrite Hslice.
    destruct (search_loop_prefix (take (Z.to_nat max_results) arts) []) as [k Hk].
    exists k. by rewrite Hk.
  - destruct (get_search e (nature_search_url query)) as [msg|arts]; simpl; [lia|].
    rewrite Hslice.
    destruct (search_loop_prefix (take (Z.to_nat max_results) arts) []) as [k ->].
    simpl. etrans; [apply length_omap_le|].
    rewrite !length_take. lia.
Qed.

Lemma search_papers_zero (e : env) (query : string) :
  value (search_papers e query 0) = [].
Proof.
  pose proof (search_papers_nonnegative e query 0 ltac:(done)) as (_ & _ & _ & H).
  apply nil_length_inv. change (Z.to_nat 0) with 0%nat in H. lia.
Qed.

(** C4 fails for a negative bound. The slice [articles[:max_results]] then
    drops elements from the end of the listing instead of keeping none: on
    a page that lists two articles, [max_results = -1] yields one hit. *)
Theorem search_papers_negative_bound :
  get_search bare (nature_search_url "dea")
  = Ok [listed (nature_search_url "dea" +:+ " first") "/a1";
        listed (nature_search_url "dea" +:+ " second") "/a2"]
  ∧ value (search_papers bare "dea" (-1))
    = [search_hit (nature_search_url "dea" +:+ " first") "https://www.nature.com/a1"]
  ∧ ¬ (Z.of_nat (length (value (search_papers bare "dea" (-1)))) ≤ -1).
Proof. vm_compute. repeat split; congruence. Qed.

(** ** The report *)

(** the report on no paper: the total is 0, the four summaries are empty
    and there is no subsection *)
Lemma generate_report_nil (now : string) :
  generate_report now []
  = "# DEA Research Report" +:+ nl +:+ nl +:+
    "Generated on: " +:+ now +:+ nl +:+ nl +:+
    "Total papers analyzed: 0" +:+ nl +:+ nl +:+
    "## Sources" +:+ nl +:+ nl +:+ nl +:+
    "## DEA Types" +:+ nl +:+ nl +:+ nl +:+
    "## Materials" +:+ nl +:+ nl +:+ nl +:+
    "## Applications" +:+ nl +:+ nl +:+ nl +:+
    "## Papers" +:+ nl +:+ nl.
Proof. reflexivity. Qed.

(** a paper without ["key_info"] (an error record is one): every list
    and every metric is printed as "Not specified" *)
Lemma paper_section_without_info (i : nat) (p : paper) :
  info p = None →
  paper_section i p
  = "### " +:+ pretty i +:+ ". " +:+ default "No title" (title p) +:+ nl +:+ nl +:+
    "- **Source**: " +:+ default "Unknown" (source p) +:+ nl +:+
    "- **URL**: " +:+ default "No URL" (url p) +:+ nl +:+
    "- **Authors**: " +:+ Py.join ", " (default ["Unknown"] (authors p)) +:+ nl +:+
    "- **Publication Date**: " +:+ default "Unknown" (publication_date p) +:+ nl +:+
    "- **DEA Types**: Not specified" +:+ nl +:+
    "- **Materials**: Not specified" +:+ nl +:+
    "- **Performance Metrics**:" +:+ nl +:+
    "  - Strain: Not specified" +:+ nl +:+
    "  - Energy Density: Not specified" +:+ nl +:+
    "  - Response Time: Not specified" +:+ nl +:+
    "- **Applications**: Not specified" +:+ nl +:+
    nl.
Proof.
  intros H. unfold paper_section, info_list, info_metric. rewrite H. reflexivity.
Qed.

(** C8 fails on a paper that [process_papers] has annotated. The
    annotation always has its four keys, so the defaults of
    [generate_report] are never used: an empty list is printed as the
    empty string and a metric that is [None] as "None". *)
Theorem report_of_annotated_paper :
  value (process_papers bare "2024-01-01 00:00:00"
           ["https://www.nature.com/articles/s41467-024-48243-y"])
  = Return bare_batch
  ∧ (info <$> bare_batch.1) = [Some unannotated]
  ∧ bare_batch.2
    = "# DEA Research Report" +:+ nl +:+ nl +:+
      "Generated on: 2024-01-01 00:00:00" +:+ nl +:+ nl +:+
      "Total papers analyzed: 1" +:+ nl +:+ nl +:+
      "## Sources" +:+ nl +:+ nl +:+ "- Nature: 1 papers" +:+ nl +:+ nl +:+
      "## DEA Types" +:+ nl +:+ nl +:+ nl +:+
      "## Materials" +:+ nl +:+ nl +:+ nl +:+
      "## Applications" +:+ nl +:+ nl +:+ nl +:+
      "## Papers" +:+ nl +:+ nl +:+
      "### 1. Title not found" +:+ nl +:+ nl +:+
      "- **Source**: Nature" +:+ nl +:+
      "- **URL**: https://www.nature.com/articles/s41467-024-48243-y" +:+ nl +:+
      "- **Authors**: " +:+ nl +:+
      "- **Publication Date**: Publication date not found" +:+ nl +:+
      "- **DEA Types**: " +:+ nl +:+
      "- **Materials**: " +:+ nl +:+
      "- **Performance Metrics**:" +:+ nl +:+
      "  - Strain: None" +:+ nl +:+
      "  - Energy Density: None" +:+ nl +:+
      "  - Response Time: None" +:+ nl +:+
      "- **Applications**: " +:+ nl +:+
      nl
  ∧ Py.contains "Not specified" bare_batch.2 = false.
Proof. vm_compute. done. Qed.

(** ** The web job *)

(** case analysis on what a worker step depends on besides the flag: the
    keys of the paper at hand and the answers of the network *)
Ltac split_outcomes :=
  repeat match goal with
         | |- context [has_error ?p] => destruct (has_error p); simpl
         | |- context [get_esearch ?e ?u] => destruct (get_esearch e u); simpl
         | |- context [title ?p] => destruct (title p); simpl
         | |- context [url ?p] => destruct (url p); simpl
         end.

Section Job.

Variable net : nat → env.

Implicit Types (s : job) (w : worker) (tr : list event) (res : list item).

Lemma exec_cons ev tr s : exec net (ev :: tr) s = exec net tr (step net ev s).
Proof. reflexivity. Qed.

Lemma exec_nil s : exec net [] s = s.
Proof. reflexivity. Qed.

Lemma turns_cons i ev tr :
  turns i (ev :: tr) = ((if decide (ev = Run i) then 1 else 0) + turns i tr)%nat.
Proof. unfold turns. rewrite filter_cons. by destruct (decide _). Qed.

Lemma starts_cons ev tr :
  starts (ev :: tr) = ((if is_start ev then 1 else 0) + starts tr)%nat.
Proof.
  unfold starts. rewrite filter_cons.
  destruct (is_start ev); by destruct (decide _).
Qed.

Lemma sum_list_with_insert {A} (f : A → nat) (l : list A) (i : nat) (x y : A) :
  l !! i = Some x →
  (sum_list_with f (<[i := y]> l) + f x = sum_list_with f l + f y)%nat.
Proof.
  revert i. induction l as [|z l IH]; intros [|i] Hi; simplify_eq/=; [lia|].
  specialize (IH i Hi). lia.
Qed.

(** *** Once the flag is set *)

Lemma search_worker_step_stopped e res w :
  (length (search_worker_step e true res w).1 + debt (search_worker_step e true res w).2
   ≤ length res + debt w)%nat
  ∧ (rank (search_worker_step e true res w).2 ≤ rank w - 1)%nat.
Proof.
  destruct w as [q m f l]. unfold search_worker_step, debt, rank, committed. simpl.
  destruct l as [| |[|p todo]|p todo| | |[|id todo]|id todo|p u todo|]; simpl;
    split_outcomes; rewrite ?length_app; simpl; lia.
Qed.

Lemma step_stopped ev s :
  stop_event s = true → is_start ev = false →
  stop_event (step net ev s) = true
  ∧ (length (results (step net ev s)) + pending (step net ev s)
     ≤ length (results s) + pending s)%nat.
Proof.
  intros Hstop Hev. destruct ev as [q n| |i]; simpl in *; [done|done|].
  destruct (threads s !! i) as [w|] eqn:Hi; [|by split].
  rewrite Hstop.
  pose proof (search_worker_step_stopped (net (clock s)) (results s) w) as [Hw _].
  destruct (search_worker_step _ _ _ _) as [res w']. unfold pending. simpl in *.
  split; [done|].
  pose proof (sum_list_with_insert debt (threads s) i w w' Hi). lia.
Qed.

(** With the flag set and no new [start], the buffer and what the
    workers may still add never grow together. *)
Lemma exec_stopped tr s :
  stop_event s = true → no_start tr →
  stop_event (exec net tr s) = true
  ∧ (length (results (exec net tr s)) + pending (exec net tr s)
     ≤ length (results s) + pending s)%nat.
Proof.
  revert s. induction tr as [|ev tr IH]; intros s Hstop Hns.
  - by split.
  - apply Forall_cons in Hns as [Hev Hns]. rewrite exec_cons.
    destruct (step_stopped ev s Hstop Hev) as [Hstop' Hle].
    destruct (IH _ Hstop' Hns) as [? ?]. split; [done|lia].
Qed.

(** With the flag set, each turn of a thread brings it nearer to its
    return. *)
Lemma exec_rank tr s i w :
  stop_event s = true → no_start tr → threads s !! i = Some w →
  ∃ w', threads (exec net tr s) !! i = Some w'
        ∧ (rank w' ≤ rank w - turns i tr)%nat.
Proof.
  revert s w. induction tr as [|ev tr IH]; intros s w Hstop Hns Hi.
  - exists w. split; [done|]. unfold turns. simpl. lia.
  - apply Forall_cons in Hns as [Hev Hns]. rewrite exec_cons, turns_cons.
    destruct (step_stopped ev s Hstop Hev) as [Hstop' _].
    destruct ev as [q n| |j]; [done| |].
    + destruct (IH _ w Hstop' Hns Hi) as (w' & ? & ?).
      exists w'. split; [done|]. rewrite decide_False by done. lia.
    + destruct (decide (j = i)) as [->|Hne].
      * pose proof (search_worker_step_stopped (net (clock s)) (results s) w)
          as [_ Hr].
        assert (Hi' : threads (step net (Run i) s) !! i
                      = Some (search_worker_step (net (clock s)) true (results s) w).2).
        { unfold step. rewrite Hi, Hstop.
          destruct (search_worker_step _ _ _ _) as [res w1]. simpl.
          apply list_lookup_insert_eq. by eapply lookup_lt_Some. }
        destruct (IH _ _ Hstop' Hns Hi') as (w' & ? & ?).
        exists w'. split; [done|]. rewrite decide_True by done. lia.
      * assert (Hi' : threads (step net (Run j) s) !! i = Some w).
        { unfold step. destruct (threads s !! j) as [wj|]; [|done].
          destruct (search_worker_step _ _ _ _) as [res w1]. simpl.
          by rewrite list_lookup_insert_ne. }
        destruct (IH _ w Hstop' Hns Hi') as (w' & ? & ?).
        exists w'. split; [done|].
        rewrite decide_False by (intros [= ?]; done). lia.
Qed.

End Job.

Lemma length_threads_step (net : nat → env) (ev : event) (s : job) :
  length (threads (step net ev s))
  = (length (threads s) + if is_start ev then 1 else 0)%nat.
Proof.
  destruct ev as [q n| |i]; simpl.
  - by rewrite length_app.
  - lia.
  - destruct (threads s !! i); [|lia].
    destruct (search_worker_step _ _ _ _). simpl. rewrite length_insert. lia.
Qed.

Lemma length_threads_exec (net : nat → env) (tr : list event) (s : job) :
  length (threads (exec net tr s)) = (length (threads s) + starts tr)%nat.
Proof.
  revert s. induction tr as [|ev tr IH]; intros s.
  - unfold starts. simpl. lia.
  - rewrite exec_cons, IH, length_threads_step, starts_cons. lia.
Qed.

Lemma starts_no_start (tr : list event) : no_start tr → starts tr = 0%nat.
Proof.
  induction 1 as [|ev tr Hev _ IH]; [done|].
  rewrite starts_cons, IH. by rewrite Hev.
Qed.

(** what the workers may still add is at most one item for each worker
    that is running *)
Lemma pending_le_running (s : job) : (pending s ≤ running_count s)%nat.
Proof.
  unfold pending, running_count.
  induction (threads s) as [|w l IH]; simpl; [done|].
  rewrite filter_cons.
  assert (Hd : (debt w ≤ if running w then 1 else 0)%nat).
  { unfold debt, committed, running. destruct (at_pc w); simpl; lia. }
  destruct (running w);
    [rewrite decide_True by done | rewrite decide_False by done];
    simpl in *; lia.
Qed.

Lemma running_count_0 (s : job) :
  (∀ i w, threads s !! i = Some w → rank w = 0%nat) → running_count s = 0%nat.
Proof.
  unfold running_count. intros H.
  induction (threads s) as [|w l IH]; [done|].
  rewrite filter_cons.
  assert (Hw : running w = false).
  { specialize (H 0%nat w eq_refl). unfold rank, running in *.
    by destruct (at_pc w). }
  rewrite decide_False by (by rewrite Hw).
  apply IH. intros i w' Hi. exact (H (S i) w' Hi).
Qed.

(** C2. Once the flag is set, a job in which at most one worker is
    running adds at most one more item to the buffer, whatever the
    schedule, as long as [start] is not called again; and once every
    worker that was running has had four turns, none is running. *)
Theorem stop_bounds_growth (net : nat → env) (s : job) (tr : list event) :
  stop_event s = true → (running_count s ≤ 1)%nat → no_start tr →
  (length (results (exec net tr s)) ≤ length (results s) + 1)%nat
  ∧ ((∀ i w, threads s !! i = Some w → running w = true → (4 ≤ turns i tr)%nat) →
     running_count (exec net tr s) = 0%nat).
Proof.
  intros Hstop Hone Hns. split.
  - destruct (exec_stopped net tr s Hstop Hns) as [_ Hle].
    pose proof (pending_le_running s). lia.
  - intros Hturns. apply running_count_0. intros i w' Hi'.
    assert (Hlen : (i < length (threads s))%nat).
    { apply lookup_lt_Some in Hi'.
      rewrite length_threads_exec, (starts_no_start tr Hns) in Hi'. lia. }
    destruct (lookup_lt_is_Some_2 _ _ Hlen) as [w Hi].
    destruct (exec_rank net tr s i w Hstop Hns Hi) as (w'' & Hi'' & Hrank).
    rewrite Hi' in Hi''. injection Hi'' as <-.
    specialize (Hturns i w Hi).
    assert (rank w ≤ 4)%nat by (unfold rank; destruct (at_pc w); lia).
    destruct (running w) eqn:Hrun.
    + specialize (Hturns eq_refl). lia.
    + assert (rank w = 0%nat) by (unfold rank, running in *; by destruct (at_pc w)).
      lia.
Qed.

Lemma stop_bounds_growth_witness :
  let s := exec (λ _, bare) late_stop (start "dea" 5 idle) in
  length (results s) = 1%nat
  ∧ (length (results (exec (λ _, bare) (replicate 4 (Run 0)) s)) ≤ 1 + 1)%nat
  ∧ length (results (exec (λ _, bare) (replicate 4 (Run 0)) s)) = 2%nat
  ∧ running_count (exec (λ _, bare) (replicate 4 (Run 0)) s) = 0%nat.
Proof.
  intros s.
  assert (Hone : (running_count s ≤ 1)%nat) by (vm_compute; lia).
  assert (Hns : no_start (replicate 4 (Run 0))) by (repeat constructor).
  destruct (stop_bounds_growth (λ _, bare) s (replicate 4 (Run 0))
              eq_refl Hone Hns) as [Hlen Hret].
  split; [reflexivity|]. split; [exact Hlen|]. split; [reflexivity|].
  apply Hret. intros [|i] w Hi Hrun; [vm_compute; lia|].
  vm_compute in Hi. discriminate Hi.
Defined.

(** C2 as worded fails in two ways. When two workers have both passed the
    test of their loops and [stop] then sets the flag, each of them still
    appends its item: the buffer grows by two before both have returned.
    And a [start] after [stop] clears the flag, so that the worker that
    was to stop runs on: the buffer grows by three before it returns. *)
Theorem stop_does_not_bound_growth_by_one :
  (let s := two_stopped in
   let s' := exec (λ _, bare) [Run 0; Run 1; Run 0; Run 1; Run 0; Run 1] s in
   stop_event s = true
   ∧ length (results s) = 0%nat
   ∧ length (results s') = 2%nat
   ∧ running_count s' = 0%nat)
  ∧ (let s := exec (λ _, bare) late_stop (start "dea" 5 idle) in
     let s' := exec (λ _, bare) (Start "y" 10 :: replicate 11 (Run 0)) s in
     stop_event s = true
     ∧ running_count s = 1%nat
     ∧ length (results s) = 1%nat
     ∧ length (results s') = 4%nat
     ∧ running <$> threads s' !! 0%nat = Some false).
Proof. vm_compute. done. Qed.

(** *** The quota of one run *)

Section Quota.

Variable net : nat → env.

Lemma search_worker_step_entered e b res w : at_pc (search_worker_step e b res w).2 ≠ Enter.
Proof.
  destruct w as [q m f l]. unfold search_worker_step. simpl.
  destruct l as [| |[|p todo]|p todo| | |[|id todo]|id todo|p u todo|];
    simpl; split_outcomes;
    repeat match goal with
           | |- context [if ?c then _ else _] => destruct c; simpl
           end; done.
Qed.




End Quota.



(** *** [start] while a worker runs *)

Lemma running_count_app (l1 l2 : list worker) (s : job) :
  threads s = l1 ++ l2 →
  running_count s
  = (length (filter (λ w, running w = true) l1)
     + length (filter (λ w, running w = true) l2))%nat.
Proof. intros H. unfold running_count. by rewrite H, filter_app, length_app. Qed.

(** C1, as amended. [start] does not look at the job: whether or not a
    worker is running, it clears the flag, leaves the buffer as it is and
    adds a worker, so that one more worker is running than before; after
    any schedule there are as many more threads as there were calls of
    [start]. *)
Theorem start_always_spawns (net : nat → env) (s : job) :
  (∀ q n,
     stop_event (step net (Start q n) s) = false
     ∧ results (step net (Start q n) s) = results s
     ∧ threads (step net (Start q n) s) = threads s ++ [spawn q n]
     ∧ running_count (step net (Start q n) s) = S (running_count s))
  ∧ (∀ tr, length (threads (exec net tr s))
           = (length (threads s) + starts tr)%nat).
Proof.
  split.
  - intros q n. repeat split.
    rewrite (running_count_app (threads s) [spawn q n]) by done.
    unfold running_count. simpl. lia.
  - intros tr. apply length_threads_exec.
Qed.

(** C1, as stated, fails. The second [start] is not a no-op: it changes
    the job and leaves two workers running. The second worker empties the
    buffer under the first one, and both then append to it in turn. *)
Lemma start_while_running_spawns_a_second_worker :
  let s1 := exec (λ _, bare) first_run idle in
  let s2 := step (λ _, bare) (Start "y" 10) s1 in
  let s3 := exec (λ _, bare) second_run s2 in
  running_count s1 = 1%nat
  ∧ item_title <$> results s1 = [nature_search_url "x" +:+ " first"]
  ∧ s2 ≠ s1
  ∧ running_count s2 = 2%nat
  ∧ running_count s3 = 2%nat
  ∧ item_title <$> results s3
    = [nature_search_url "y" +:+ " first";
       nature_search_url "x" +:+ " second";
       nature_search_url "y" +:+ " second"].
Proof.
  vm_compute. repeat split. intros H. discriminate H.
Qed.

(** * Further properties *)

(** ** Keyword extraction, continued *)

Lemma startswith_app (a b s : string) :
  Py.startswith (a +:+ b) s = true → Py.startswith a s = true.
Proof.
  revert s. induction a as [|c a IH]; intros s; [done|].
  destruct s as [|d s]; simpl; [done|].
  destruct (Ascii.eqb c d); [apply IH|done].
Qed.

Lemma contains_app (a b s : string) :
  Py.contains (a +:+ b) s = true → Py.contains a s = true.
Proof.
  induction s as [|d s IH].
  - apply startswith_app.
  - cbn [Py.contains]. intros H. apply orb_true_iff.
    apply orb_true_iff in H. destruct H as [H|H].
    + left. by eapply startswith_app.
    + right. by apply IH.
Qed.

Lemma is_digit_lower_char (c : ascii) :
  Py.is_digit (Py.lower_char c) = Py.is_digit c.
Proof. by destruct c as [[] [] [] [] [] [] [] []]. Qed.

Lemma has_digit_lower (s : string) : has_digit (Py.lower s) = has_digit s.
Proof.
  induction s as [|c s IH]; simpl; [done|].
  by rewrite is_digit_lower_char, IH.
Qed.

(** both patterns begin with a digit *)
Lemma match_here_needs_digit (r : Re.regex) (s : string) :
  match s with
  | EmptyString => True
  | String c _ => Py.is_digit c = false
  end →
  Re.match_here (Re.Cat number r) s = None.
Proof.
  intros H. unfold Re.match_here, number, Re.Plus. cbn [Re.bt].
  destruct s as [|c s]; [done|]. unfold Re.class. by rewrite H.
Qed.

Lemma findall_go_no_digit (r : Re.regex) (fuel : nat) (s : string) :
  has_digit s = false → Re.findall_go fuel (Re.Cat number r) s = [].
Proof.
  revert s. induction fuel as [|fuel IH]; intros s H; [done|].
  cbn [Re.findall_go]. rewrite match_here_needs_digit.
  - destruct s as [|c s]; [done|]. apply IH. simpl in H.
    by apply orb_false_iff in H as [_ ?].
  - destruct s as [|c s]; [done|]. simpl in H.
    by apply orb_false_iff in H as [? _].
Qed.

(** X1. A word of a vocabulary is listed by [extract_key_info] exactly
    when its lower-cased form occurs in the lower-cased abstract; nothing
    else is ever listed. This holds for the DEA types, the materials and
    the applications. *)
Theorem vocabulary_word_listed_iff (p : paper) (v : string) :
  let text := Py.lower (default "" (abstract p)) in
  (v ∈ default [] (dea_type (extract_key_info p))
   ↔ v ∈ dea_types ∧ Py.contains (Py.lower v) text = true)
  ∧ (v ∈ default [] (materials (extract_key_info p))
     ↔ v ∈ materials_vocabulary ∧ Py.contains (Py.lower v) text = true)
  ∧ (v ∈ default [] (applications (extract_key_info p))
     ↔ v ∈ applications_vocabulary ∧ Py.contains (Py.lower v) text = true).
Proof.
  simpl. rewrite !scan_vocabulary_filter, !list_elem_of_filter. tauto.
Qed.

Lemma vocabulary_word_listed_iff_witness :
  "VHB" ∈ default [] (materials (extract_key_info
                                   (abstract_only "Films of vhb were stretched"))).
Proof.
  apply (proj1 (proj2 (vocabulary_word_listed_iff
                         (abstract_only "Films of vhb were stretched") "VHB"))).
  split; [compute_done|reflexivity].
Defined.

(** X2. The vocabulary of DEA types overlaps: whenever "dielectric
    elastomer actuator" is listed, "dielectric elastomer" is listed too. *)
Theorem dea_type_overlap (p : paper) :
  "dielectric elastomer actuator" ∈ default [] (dea_type (extract_key_info p)) →
  "dielectric elastomer" ∈ default [] (dea_type (extract_key_info p)).
Proof.
  simpl. rewrite !scan_vocabulary_filter, !list_elem_of_filter.
  intros [H _]. split; [|compute_done].
  exact (contains_app "dielectric elastomer" " actuator" _ H).
Qed.

Lemma dea_type_overlap_witness :
  "dielectric elastomer"
  ∈ default [] (dea_type (extract_key_info (abstract_only scenario_abstract))).
Proof.
  apply (dea_type_overlap (abstract_only scenario_abstract)).
  vm_compute. apply list_elem_of_here.
Defined.

(** X3. An abstract without any of the digits 0 to 9 gives no metric:
    strain, energy density and response time are all [None]. The abstract
    is a string of the model, so its characters are within Latin-1, where
    the class [\d] matches these ten digits and nothing else. *)
Theorem no_digit_no_metric (p : paper) :
  has_digit (default "" (abstract p)) = false →
  performance (extract_key_info p)
  = Some {| strain := Some PyNone; energy_density := Some PyNone;
            response_time := Some PyNone |}.
Proof.
  intros H. unfold extract_key_info, first_match, Re.findall. cbn [performance].
  unfold strain_pattern, energy_pattern.
  by rewrite !findall_go_no_digit by (by rewrite has_digit_lower).
Qed.

Lemma no_digit_no_metric_witness :
  performance (extract_key_info (abstract_only "A soft DEA with large strain and high J/kg"))
  = Some {| strain := Some PyNone; energy_density := Some PyNone;
            response_time := Some PyNone |}.
Proof.
  apply (no_digit_no_metric (abstract_only "A soft DEA with large strain and high J/kg")).
  reflexivity.
Defined.

(** ** Search, continued *)

(** the loop on a longer listing starts with what it returns on a
    shorter one *)
Lemma search_loop_app (l1 l2 : list article) (acc : list paper) :
  search_loop l1 acc `prefix_of` search_loop (l1 ++ l2) acc.
Proof.
  revert acc. induction l1 as [|a l1 IH]; intros acc.
  - simpl. destruct (search_loop_prefix l2 acc) as [k ->]. by eexists.
  - simpl. destruct (art_h3 a) as [t|], (art_link a) as [[href|]|]; auto.
Qed.

Lemma search_loop_shape (arts : list article) (p : paper) :
  p ∈ search_loop arts [] →
  ∃ t href, p = search_hit (Py.strip t) ("https://www.nature.com" +:+ href).
Proof.
  destruct (search_loop_prefix arts []) as [k ->]. simpl.
  intros (a & _ & Ha)%list_elem_of_omap. unfold hit_of in Ha.
  destruct (art_h3 a) as [t|], (art_link a) as [[href|]|]; simplify_eq.
  by exists t, href.
Qed.

(** X4. Whatever the bound, [search_papers] issues exactly one request,
    to the search address of the query; a failed request gives the empty
    list; and every hit has a title, an address under
    https://www.nature.com, the source "Nature", and no other key. *)
Theorem search_papers_hits (e : env) (query : string) (max_results : Z) :
  requests (search_papers e query max_results) = [nature_search_url query]
  ∧ (∀ msg, get_search e (nature_search_url query) = Failed msg →
            value (search_papers e query max_results) = [])
  ∧ Forall (λ p, ∃ t href,
               p = {| title := Some (Py.strip t); authors := None;
                      abstract := None; publication_date := None; doi := None;
                      url := Some ("https://www.nature.com" +:+ href);
                      source := Some "Nature"; error := None; info := None |})
           (value (search_papers e query max_results)).
Proof.
  unfold requests, value, run, search_papers, request. simpl.
  split; [by destruct (get_search e (nature_search_url query))|].
  split; [by intros msg ->|].
  destruct (get_search e (nature_search_url query)) as [msg|arts]; simpl.
  - constructor.
  - apply Forall_forall. intros p Hp. by apply search_loop_shape in Hp.
Qed.

Lemma search_papers_hits_witness :
  value (search_papers down "dea" 5) = [].
Proof.
  apply (proj1 (proj2 (search_papers_hits down "dea" 5)) "timed out").
  reflexivity.
Defined.

(** the loop passes over the listing up to the first element that raises
    [KeyError] and keeps the hits of the elements with a heading and a
    link *)
Lemma search_loop_until (arts : list article) (acc : list paper) :
  search_loop arts acc = acc ++ omap hit_of (until_key_error arts).
Proof.
  revert acc. induction arts as [|a arts IH]; intros acc; simpl.
  - by rewrite app_nil_r.
  - destruct a as [[t|] [[href|]|]]; csimpl; rewrite ?IH, ?app_nil_r; try done.
    by rewrite <- app_assoc.
Qed.

(** [until_key_error] cuts a listing just before its first element that
    raises [KeyError] *)
Lemma until_key_error_cut (arts : list article) :
  Forall (λ a, raises_key_error a = false) (until_key_error arts)
  ∧ (until_key_error arts = arts
     ∨ ∃ a rest, arts = until_key_error arts ++ a :: rest
                 ∧ raises_key_error a = true).
Proof.
  induction arts as [|a arts [IH1 IH2]]; simpl.
  - split; [constructor|by left].
  - destruct (raises_key_error a) eqn:Ha.
    + split; [constructor|]. right. by exists a, arts.
    + split; [by constructor|].
      destruct IH2 as [->|(a' & rest & Heq & Ha')]; [by left|].
      right. exists a', rest. split; [|done]. simpl. by rewrite <- Heq.
Qed.

(** X5. For a bound that is not negative, [search_papers] returns at most
    [max_results] hits. They are exactly the hits of the listing elements
    that have a heading and a tracked link, in page order, taken among the
    first [max_results] elements and cut at the first of these elements
    that has a heading and a tracked link without an address: no element
    before the cut is such an element, and either nothing is cut or the
    element at the cut is one. *)
Theorem search_papers_bounded (e : env) (query : string) (max_results : Z) :
  0 ≤ max_results →
  (length (value (search_papers e query max_results)) ≤ Z.to_nat max_results)%nat
  ∧ (∀ arts, get_search e (nature_search_url query) = Ok arts →
       let first := take (Z.to_nat max_results) arts in
       value (search_papers e query max_results)
       = omap hit_of (until_key_error first)
       ∧ Forall (λ a, raises_key_error a = false) (until_key_error first)
       ∧ (until_key_error first = first
          ∨ ∃ a rest, first = until_key_error first ++ a :: rest
                      ∧ raises_key_error a = true)).
Proof.
  intros Hn.
  destruct (search_papers_nonnegative e query max_results Hn) as (_ & _ & _ & Hlen).
  split; [done|]. intros arts Harts first.
  split; [|apply until_key_error_cut].
  unfold value, run, search_papers, request. simpl. rewrite Harts. simpl.
  unfold Py.slice_to. destruct (Z.leb_spec 0 max_results); [|lia].
  by rewrite search_loop_until.
Qed.

Lemma search_papers_bounded_witness :
  (length (value (search_papers padded "dea" 2)) ≤ Z.to_nat 2)%nat
  ∧ value (search_papers padded "dea" 2)
    = omap hit_of (until_key_error
                     [listed "  First  " "/a1";
                      {| art_h3 := None; art_link := Some (Some "/a2") |}])
  ∧ value (search_papers padded "dea" 2)
    = [search_hit "First" "https://www.nature.com/a1"].
Proof.
  destruct (search_papers_bounded padded "dea" 2 ltac:(lia)) as [Hlen Hcut].
  split; [exact Hlen|]. split; [|reflexivity].
  exact (proj1 (Hcut _ eq_refl)).
Defined.

(** X6. Raising a bound that is not negative only extends the answer: on
    the same page, the hits for a smaller bound are the first hits for a
    larger one. *)
Theorem search_papers_monotone (e : env) (query : string) (m n : Z) :
  0 ≤ m → m ≤ n →
  value (search_papers e query m) `prefix_of` value (search_papers e query n).
Proof.
  intros Hm Hmn. unfold value, run, search_papers, request. simpl.
  destruct (get_search e (nature_search_url query)) as [msg|arts]; simpl; [done|].
  unfold Py.slice_to.
  destruct (Z.leb_spec 0 m); [|lia]. destruct (Z.leb_spec 0 n); [|lia].
  assert (Hsplit : take (Z.to_nat n) arts
                   = take (Z.to_nat m) arts
                     ++ take (Z.to_nat n - Z.to_nat m) (drop (Z.to_nat m) arts)).
  { rewrite <- (take_drop (Z.to_nat m) (take (Z.to_nat n) arts)) at 1.
    rewrite take_take, Nat.min_l by lia. f_equal. apply skipn_firstn_comm. }
  rewrite Hsplit. apply search_loop_app.
Qed.

Lemma search_papers_monotone_witness :
  value (search_papers padded "dea" 1) `prefix_of` value (search_papers padded "dea" 3)
  ∧ value (search_papers padded "dea" 3)
    = [search_hit "First" "https://www.nature.com/a1";
       search_hit "Third" "https://www.nature.com/a3"].
Proof.
  split; [|reflexivity].
  apply (search_papers_monotone padded "dea" 1 3); lia.
Defined.

(** ** Dispatch and the source adapters, continued *)

(** [fetch_paper] adds its requests to the log and does not read it *)
Lemma fetch_paper_frame (e : env) (u : string) (log : list string) :
  fetch_paper e u log
  = (value (fetch_paper e u), log ++ requests (fetch_paper e u)).
Proof.
  unfold value, requests, run, fetch_paper.
  destruct (netloc e u) as [domain|exc]; [|simpl; by rewrite app_nil_r].
  destruct (Py.contains "nature.com" domain);
    [|destruct (Py.contains "arxiv.org" domain);
      [|destruct (Py.contains "ncbi.nlm.nih.gov" domain)]];
    unfold fetch_nature_paper, fetch_arxiv_paper, fetch_pubmed_paper, request,
      mbind, M_bind;
    simpl; by rewrite ?app_nil_r.
Qed.

(** [fetch_paper] returns a record exactly when [urlparse] returns *)
Lemma fetch_paper_returns (e : env) (u domain : string) :
  netloc e u = Return domain → ∃ p, value (fetch_paper e u) = Return p.
Proof.
  intros Hd. unfold value, run, fetch_paper. rewrite Hd.
  destruct (Py.contains "nature.com" domain);
    [|destruct (Py.contains "arxiv.org" domain);
      [|destruct (Py.contains "ncbi.nlm.nih.gov" domain)]];
    unfold mbind, M_bind.
  - destruct (fetch_nature_paper e u []). by eexists.
  - destruct (fetch_arxiv_paper e u []). by eexists.
  - destruct (fetch_pubmed_paper e u []). by eexists.
  - by eexists.
Qed.

Lemma fetch_paper_url_info (e : env) (u : string) (p : paper) :
  value (fetch_paper e u) = Return p → url p = Some u ∧ info p = None.
Proof.
  unfold value, run, fetch_paper.
  destruct (netloc e u) as [domain|exc]; [|done].
  destruct (Py.contains "nature.com" domain);
    [|destruct (Py.contains "arxiv.org" domain);
      [|destruct (Py.contains "ncbi.nlm.nih.gov" domain)]];
    unfold mbind, M_bind.
  - unfold fetch_nature_paper, request, mbind, M_bind. simpl.
    destruct (get_nature e u); intros [= <-]; done.
  - unfold fetch_arxiv_paper, request, mbind, M_bind. simpl.
    destruct (get_arxiv e _) as [msg|[en|]]; [by intros [= <-]| |by intros [= <-]].
    destruct (a_title en), (arxiv_authors (a_authors en) []), (a_summary en),
      (a_published en); by intros [= <-].
  - unfold fetch_pubmed_paper, request, mbind, M_bind. simpl.
    destruct (get_pubmed e u); intros [= <-]; done.
  - by intros [= <-].
Qed.

Lemma fetch_paper_requests_le (e : env) (u : string) :
  (length (requests (fetch_paper e u)) ≤ 1)%nat.
Proof.
  unfold requests, run, fetch_paper.
  destruct (netloc e u) as [domain|exc]; [|simpl; lia].
  destruct (Py.contains "nature.com" domain);
    [|destruct (Py.contains "arxiv.org" domain);
      [|destruct (Py.contains "ncbi.nlm.nih.gov" domain)]];
    unfold fetch_nature_paper, fetch_arxiv_paper, fetch_pubmed_paper, request,
      mbind, M_bind;
    simpl; lia.
Qed.

(** X7. [fetch_paper] raises exactly when [urlparse] does, with the same
    exception. Every record it returns carries the address it was asked
    for and a title, and has no annotation yet. It has an error exactly
    when it has no source; a record without error names one of the three
    sources and has its authors, abstract and publication date. *)
Theorem fetch_paper_record (e : env) (u : string) :
  match netloc e u with
  | Raise exc => value (fetch_paper e u) = Raise exc
  | Return _ =>
      ∃ p, value (fetch_paper e u) = Return p
           ∧ url p = Some u
           ∧ is_Some (title p)
           ∧ info p = None
           ∧ (is_Some (error p) ↔ source p = None)
           ∧ (error p = None →
              (∃ name, source p = Some name ∧ name ∈ source_names)
              ∧ is_Some (authors p) ∧ is_Some (abstract p)
              ∧ is_Some (publication_date p))
  end.
Proof.
  assert (Herr : ∀ msg, let p := error_record u msg in
            url p = Some u ∧ is_Some (title p) ∧ info p = None
            ∧ (is_Some (error p) ↔ source p = None)
            ∧ (error p = None →
               (∃ name, source p = Some name ∧ name ∈ source_names)
               ∧ is_Some (authors p) ∧ is_Some (abstract p)
               ∧ is_Some (publication_date p))).
  { intros msg. simpl. repeat split; eauto; done. }
  assert (Hok : ∀ p, url p = Some u → is_Some (title p) → info p = None →
            error p = None → (∃ name, source p = Some name ∧ name ∈ source_names) →
            is_Some (authors p) → is_Some (abstract p) →
            is_Some (publication_date p) →
            url p = Some u ∧ is_Some (title p) ∧ info p = None
            ∧ (is_Some (error p) ↔ source p = None)
            ∧ (error p = None →
               (∃ name, source p = Some name ∧ name ∈ source_names)
               ∧ is_Some (authors p) ∧ is_Some (abstract p)
               ∧ is_Some (publication_date p))).
  { intros p ? ? ? He (name & Hs & ?) ? ? ?. repeat split; eauto.
    - rewrite He. by intros [? ?].
    - by rewrite Hs. }
  unfold value, run, fetch_paper.
  destruct (netloc e u) as [domain|exc]; [|done].
  destruct (Py.contains "nature.com" domain);
    [|destruct (Py.contains "arxiv.org" domain);
      [|destruct (Py.contains "ncbi.nlm.nih.gov" domain)]].
  - unfold fetch_nature_paper, request, mbind, M_bind. simpl.
    destruct (get_nature e u) as [msg|soup];
      (eexists; split; [reflexivity|]); [apply Herr|].
    apply Hok; simpl; eauto. exists "Nature". split; [done|compute_done].
  - unfold fetch_arxiv_paper, request, mbind, M_bind. simpl.
    destruct (get_arxiv e _) as [msg|[en|]];
      [eexists; split; [reflexivity|apply Herr]|
      |eexists; split; [reflexivity|apply Herr]].
    destruct (a_title en), (arxiv_authors (a_authors en) []), (a_summary en),
      (a_published en);
      (eexists; split; [reflexivity|]); try apply Herr.
    apply Hok; simpl; eauto. exists "arXiv". split; [done|compute_done].
  - unfold fetch_pubmed_paper, request, mbind, M_bind. simpl.
    destruct (get_pubmed e u) as [msg|soup];
      (eexists; split; [reflexivity|]); [apply Herr|].
    apply Hok; simpl; eauto. exists "PubMed Central". split; [done|compute_done].
  - eexists; split; [reflexivity|]. simpl. repeat split; eauto; done.
Qed.

Lemma fetch_paper_record_witness :
  ∃ p, value (fetch_paper padded "https://www.nature.com/articles/x") = Return p
       ∧ url p = Some "https://www.nature.com/articles/x"
       ∧ is_Some (title p)
       ∧ info p = None
       ∧ (is_Some (error p) ↔ source p = None)
       ∧ (error p = None →
          (∃ name, source p = Some name ∧ name ∈ source_names)
          ∧ is_Some (authors p) ∧ is_Some (abstract p)
          ∧ is_Some (publication_date p)).
Proof.
  exact (fetch_paper_record padded "https://www.nature.com/articles/x").
Defined.

(** X8. A request that fails is turned into data: each adapter then
    returns the record with the title "Error fetching paper", the address
    it was asked for and the message of the failure, and nothing else. *)
Theorem request_failure_is_recorded (e : env) (u msg : string) :
  (get_nature e u = Failed msg →
   value (fetch_nature_paper e u) = error_record u msg)
  ∧ (get_arxiv e ("http://export.arxiv.org/api/query?id_list=" +:+ last_segment u)
     = Failed msg →
     value (fetch_arxiv_paper e u) = error_record u msg)
  ∧ (get_pubmed e u = Failed msg →
     value (fetch_pubmed_paper e u) = error_record u msg).
Proof.
  unfold value, run, fetch_nature_paper, fetch_arxiv_paper, fetch_pubmed_paper,
    request. simpl.
  repeat split; by intros ->.
Qed.

Lemma request_failure_is_recorded_witness :
  value (fetch_nature_paper down "https://www.nature.com/articles/x")
  = error_record "https://www.nature.com/articles/x" "timed out"
  ∧ value (fetch_arxiv_paper down "https://arxiv.org/abs/2401.00001")
    = error_record "https://arxiv.org/abs/2401.00001" "timed out"
  ∧ value (fetch_pubmed_paper down "https://www.ncbi.nlm.nih.gov/pmc/articles/PMC7/")
    = error_record "https://www.ncbi.nlm.nih.gov/pmc/articles/PMC7/" "timed out".
Proof.
  split; [|split].
  - apply (proj1 (request_failure_is_recorded down _ "timed out")). reflexivity.
  - apply (proj1 (proj2 (request_failure_is_recorded down _ "timed out"))).
    reflexivity.
  - apply (proj2 (proj2 (request_failure_is_recorded down _ "timed out"))).
    reflexivity.
Defined.

(** X9. [fetch_paper] issues at most one request, and none exactly when
    the host matches no publisher domain or [urlparse] raises; what the
    request returns has no part in this. *)
Theorem fetch_paper_requests (e : env) (u : string) :
  (length (requests (fetch_paper e u)) ≤ 1)%nat
  ∧ (requests (fetch_paper e u) = []
     ↔ match netloc e u with
       | Return domain => unmatched domain
       | Raise _ => True
       end).
Proof.
  unfold requests, run, fetch_paper, unmatched.
  destruct (netloc e u) as [domain|exc]; [|simpl; split; [lia|done]].
  destruct (Py.contains "nature.com" domain);
    [|destruct (Py.contains "arxiv.org" domain);
      [|destruct (Py.contains "ncbi.nlm.nih.gov" domain)]];
    unfold fetch_nature_paper, fetch_arxiv_paper, fetch_pubmed_paper, request,
      mbind, M_bind;
    simpl; (split; [lia|]); split; try done; by intros (? & ? & ?).
Qed.

Lemma fetch_paper_requests_witness :
  requests (fetch_paper down "ftp://example.org/paper.pdf") = [].
Proof.
  apply (proj2 (fetch_paper_requests down "ftp://example.org/paper.pdf")).
  vm_compute. done.
Defined.

(** ** The batch run *)

(** the requests of the addresses of a list, one address after the other *)
Lemma fetch_all_returns (e : env) (urls : list string) (acc : list paper)
    (log : list string) :
  Forall (λ u, ∃ domain, netloc e u = Return domain) urls →
  ∃ papers,
    fetch_all e urls acc log
    = (Return (acc ++ papers),
       log ++ concat ((λ u, requests (fetch_paper e u)) <$> urls))
    ∧ Forall2 (λ u p, ∃ q, value (fetch_paper e u) = Return q ∧ p = annotate q)
              urls papers.
Proof.
  intros Hall. revert acc log.
  induction Hall as [|u urls [domain Hd] _ IH]; intros acc log.
  - exists []. simpl. rewrite !app_nil_r. by split; [|constructor].
  - destruct (fetch_paper_returns e u domain Hd) as [q Hq].
    destruct (IH (acc ++ [annotate q]) (log ++ requests (fetch_paper e u)))
      as (papers & Heq & Hrel).
    exists (annotate q :: papers). split.
    + cbn [fetch_all]. unfold mbind, M_bind. rewrite fetch_paper_frame, Hq, Heq.
      simpl. by rewrite <- !app_assoc.
    + constructor; [by exists q|done].
Qed.

Lemma fetch_all_raises (e : env) (before after : list string) (u exc : string)
    (acc : list paper) (log : list string) :
  Forall (λ u, ∃ domain, netloc e u = Return domain) before →
  netloc e u = Raise exc →
  fetch_all e (before ++ u :: after) acc log
  = (Raise exc, log ++ concat ((λ u, requests (fetch_paper e u)) <$> before)).
Proof.
  intros Hall Hexc. revert acc log.
  induction Hall as [|v before [domain Hd] _ IH]; intros acc log.
  - cbn [fetch_all app]. unfold mbind, M_bind. rewrite fetch_paper_frame.
    unfold value, requests. rewrite (fetch_paper_propagates e u exc Hexc).
    simpl. by rewrite !app_nil_r.
  - destruct (fetch_paper_returns e v domain Hd) as [q Hq].
    cbn [fetch_all app]. unfold mbind, M_bind. rewrite fetch_paper_frame, Hq, IH.
    simpl. by rewrite <- !app_assoc.
Qed.

Lemma annotate_fetched (e : env) (u : string) (q : paper) :
  value (fetch_paper e u) = Return q →
  url (annotate q) = Some u
  ∧ info (annotate q)
    = (if has_error (annotate q) then None else Some (extract_key_info (annotate q))).
Proof.
  intros Hq. destruct (fetch_paper_url_info e u q Hq) as (Hu & Hi).
  unfold annotate. destruct (has_error q) eqn:He.
  - by rewrite He.
  - split; [done|]. unfold has_error in *. simpl. by rewrite He.
Qed.

(** X10. A batch run has no handler around [fetch_paper]. When [urlparse]
    accepts every address, it returns one record per address, in the
    order of the addresses, each carrying its address; a record with an
    error is left without annotation, a record without error is annotated
    with what [extract_key_info] gives for it; the report is the one of
    these records; and the requests are those of the addresses, one after
    the other, so at most one per address. When [urlparse] rejects an
    address, the run raises at the first such address: nothing is
    returned, and only the addresses before it have been requested. *)
Theorem process_papers_records (e : env) (now : string) (urls : list string) :
  (Forall (λ u, ∃ domain, netloc e u = Return domain) urls →
   ∃ papers,
     value (process_papers e now urls) = Return (papers, generate_report now papers)
     ∧ Forall2 (λ u p, ∃ q, value (fetch_paper e u) = Return q ∧ p = annotate q)
               urls papers
     ∧ url <$> papers = Some <$> urls
     ∧ Forall (λ p, info p = if has_error p then None
                             else Some (extract_key_info p)) papers
     ∧ requests (process_papers e now urls)
       = concat ((λ u, requests (fetch_paper e u)) <$> urls)
     ∧ (length (requests (process_papers e now urls)) ≤ length urls)%nat)
  ∧ (∀ before u after exc,
       urls = before ++ u :: after →
       Forall (λ u, ∃ domain, netloc e u = Return domain) before →
       netloc e u = Raise exc →
       value (process_papers e now urls) = Raise exc
       ∧ requests (process_papers e now urls)
         = concat ((λ u, requests (fetch_paper e u)) <$> before)).
Proof.
  split.
  - intros Hall.
    destruct (fetch_all_returns e urls [] [] Hall) as (papers & Heq & Hrel).
    exists papers.
    unfold value, requests, run, process_papers, mbind, M_bind. rewrite Heq.
    simpl. split; [done|]. split; [done|].
    split; [|split; [|split; [reflexivity|]]].
    + clear Heq Hall. induction Hrel as [|u p urls papers (q & Hq & ->) _ IH]; [done|].
      csimpl. destruct (annotate_fetched e u q Hq) as [-> _]. by rewrite IH.
    + clear Heq Hall. induction Hrel as [|u p urls papers (q & Hq & ->) _ IH];
        constructor; [|done].
      apply (annotate_fetched e u q Hq).
    + clear. induction urls as [|u urls IH]; [done|]. csimpl. rewrite length_app.
      pose proof (fetch_paper_requests_le e u). unfold requests, run in *. lia.
  - intros before u after exc -> Hall Hexc.
    unfold value, requests, run, process_papers, mbind, M_bind.
    by rewrite (fetch_all_raises e before after u exc [] [] Hall Hexc).
Qed.

Lemma process_papers_records_witness :
  value (process_papers bare "2024-01-01 00:00:00"
           ["https://www.nature.com/articles/x"; "https://[example.org/paper";
            "https://arxiv.org/abs/2401.00001"])
  = Raise "Invalid IPv6 URL"
  ∧ requests (process_papers bare "2024-01-01 00:00:00"
                ["https://www.nature.com/articles/x"; "https://[example.org/paper";
                 "https://arxiv.org/abs/2401.00001"])
    = ["https://www.nature.com/articles/x"].
Proof.
  apply (proj2 (process_papers_records bare "2024-01-01 00:00:00"
                  ["https://www.nature.com/articles/x"; "https://[example.org/paper";
                   "https://arxiv.org/abs/2401.00001"])
           ["https://www.nature.com/articles/x"] "https://[example.org/paper"
           ["https://arxiv.org/abs/2401.00001"] "Invalid IPv6 URL").
  - reflexivity.
  - repeat constructor. by exists "www.nature.com".
  - reflexivity.
Defined.

(** ** The tallies of the report *)

Lemma tally_get_bump (k k' : string) (d : tally) :
  tally_get k' (bump k d)
  = (tally_get k' d + if decide (k' = k) then 1 else 0)%nat.
Proof.
  induction d as [|[k0 n] d IH]; simpl.
  - destruct (decide (k' = k)); lia.
  - destruct (decide (k = k0)) as [->|Hne]; simpl.
    + destruct (decide (k' = k0)); lia.
    + destruct (decide (k' = k0)) as [->|]; [|done].
      rewrite decide_False by done. lia.
Qed.

Lemma bump_keys (k : string) (d : tally) :
  (bump k d).*1 = if decide (k ∈ d.*1) then d.*1 else d.*1 ++ [k].
Proof.
  induction d as [|[k0 n] d IH].
  - cbn [bump fmap list_fmap fst]. destruct (decide (k ∈ [])) as [Hin|]; [|done].
    by apply elem_of_nil in Hin.
  - cbn [bump]. destruct (decide (k = k0)) as [->|Hne].
    + cbn [fmap list_fmap fst].
      destruct (decide (k0 ∈ k0 :: d.*1)) as [|Hout]; [done|].
      destruct Hout. apply list_elem_of_here.
    + change (((k0, n) :: bump k d).*1) with (k0 :: (bump k d).*1).
      change (((k0, n) :: d).*1) with (k0 :: d.*1).
      rewrite IH. destruct (decide (k ∈ d.*1)) as [Hin|Hout].
      * destruct (decide (k ∈ k0 :: d.*1)) as [|Hout']; [done|].
        destruct Hout'. by apply list_elem_of_further.
      * destruct (decide (k ∈ k0 :: d.*1)) as [Hin'|]; [|done].
        apply elem_of_cons in Hin' as [?|?]; done.
Qed.

Lemma bump_NoDup (k : string) (d : tally) : NoDup d.*1 → NoDup (bump k d).*1.
Proof.
  intros Hd. rewrite bump_keys. destruct (decide (k ∈ d.*1)); [done|].
  apply NoDup_app. split; [done|]. split; [|apply NoDup_singleton].
  intros x Hx ->%list_elem_of_singleton. done.
Qed.

Lemma bump_sum (k : string) (d : tally) :
  sum_list (bump k d).*2 = S (sum_list d.*2).
Proof.
  induction d as [|[k0 n] d IH]; [done|]. cbn [bump].
  destruct (decide (k = k0)); csimpl; [done|]. rewrite IH. lia.
Qed.

Lemma bump_elem_of (k k' : string) (d : tally) :
  k' ∈ (bump k d).*1 ↔ k' ∈ d.*1 ∨ k' = k.
Proof.
  rewrite bump_keys. destruct (decide (k ∈ d.*1)) as [Hin|Hout].
  - split; [by left|]. intros [?| ->]; done.
  - rewrite elem_of_app, list_elem_of_singleton. done.
Qed.

Lemma count_all_cons (l : string) (labels : list string) (d : tally) :
  count_all (l :: labels) d = count_all labels (bump l d).
Proof. reflexivity. Qed.

Lemma count_all_get (labels : list string) (d : tally) (k : string) :
  tally_get k (count_all labels d) = (tally_get k d + occurrences k labels)%nat.
Proof.
  unfold occurrences. revert d. induction labels as [|l labels IH]; intros d.
  - simpl. lia.
  - rewrite count_all_cons, IH, tally_get_bump, filter_cons.
    destruct (decide (k = l)) as [->|Hne].
    + rewrite decide_True by done. simpl. lia.
    + rewrite decide_False by (intros ->; done). lia.
Qed.

Lemma count_all_NoDup (labels : list string) (d : tally) :
  NoDup d.*1 → NoDup (count_all labels d).*1.
Proof.
  revert d. induction labels as [|l labels IH]; intros d Hd; [done|].
  rewrite count_all_cons. by apply IH, bump_NoDup.
Qed.

Lemma count_all_elem_of (labels : list string) (d : tally) (k : string) :
  k ∈ (count_all labels d).*1 ↔ k ∈ d.*1 ∨ k ∈ labels.
Proof.
  revert d. induction labels as [|l labels IH]; intros d.
  - split; [by left|]. intros [?|H]; [done|]. by apply elem_of_nil in H.
  - rewrite count_all_cons, IH, bump_elem_of, elem_of_cons. tauto.
Qed.

Lemma count_all_sum (labels : list string) (d : tally) :
  sum_list (count_all labels d).*2 = (sum_list d.*2 + length labels)%nat.
Proof.
  revert d. induction labels as [|l labels IH]; intros d.
  - simpl. lia.
  - rewrite count_all_cons, IH, bump_sum. simpl. lia.
Qed.

(** X11. A tally built from a list of labels gives every label the number
    of its occurrences, lists each label once, lists exactly the labels
    that occur, and its counts add up to the number of labels. *)
Theorem tally_counts (labels : list string) (k : string) :
  tally_get k (count_all labels []) = occurrences k labels
  ∧ NoDup (count_all labels []).*1
  ∧ (k ∈ (count_all labels []).*1 ↔ k ∈ labels)
  ∧ sum_list (count_all labels []).*2 = length labels.
Proof.
  split; [by rewrite count_all_get|].
  split; [apply count_all_NoDup; constructor|].
  split; [|by rewrite count_all_sum].
  rewrite count_all_elem_of. split; [|by right].
  intros [H|H]; [by apply elem_of_nil in H|done].
Qed.

Lemma count_all_app (l1 l2 : list string) (d : tally) :
  count_all (l1 ++ l2) d = count_all l2 (count_all l1 d).
Proof. unfold count_all. apply foldl_app. Qed.

Lemma tally_by_label (f : paper → string) (papers : list paper) (d : tally) :
  foldl (λ d p, bump (f p) d) d papers = count_all (f <$> papers) d.
Proof.
  revert d. induction papers as [|p papers IH]; intros d; [done|].
  csimpl. by rewrite IH.
Qed.

Lemma tally_by_labels (g : paper → list string) (papers : list paper) (d : tally) :
  foldl (λ d p, count_all (g p) d) d papers = count_all (papers ≫= g) d.
Proof.
  revert d. induction papers as [|p papers IH]; intros d; [done|].
  csimpl. by rewrite IH, count_all_app.
Qed.

Lemma occurrences_fmap (f : paper → string) (papers : list paper) (k : string) :
  occurrences k (f <$> papers) = length (filter (λ p, f p = k) papers).
Proof.
  unfold occurrences. induction papers as [|p papers IH]; [done|].
  csimpl. rewrite !filter_cons. destruct (decide (f p = k)); simpl; by rewrite IH.
Qed.

(** X12. The report is made of its heading, the date, the number of
    papers, the four tallies and the subsections of the papers. The tally
    of sources counts every paper once, a paper without a source under
    "Unknown": its counts add up to the number of papers, and a label has
    the number of papers that carry it. The other three tallies count the
    entries of the papers' lists, a paper without annotation adding none. *)
Theorem report_sections (now : string) (papers : list paper) (k : string) :
  generate_report now papers
  = "# DEA Research Report" +:+ nl +:+ nl +:+
    "Generated on: " +:+ now +:+ nl +:+ nl +:+
    "Total papers analyzed: " +:+ pretty (length papers) +:+ nl +:+ nl +:+
    summary_section "Sources" (count_all (source_label <$> papers) []) +:+
    summary_section "DEA Types" (count_all (papers ≫= info_list dea_type []) []) +:+
    summary_section "Materials" (count_all (papers ≫= info_list materials []) []) +:+
    summary_section "Applications"
      (count_all (papers ≫= info_list applications []) []) +:+
    "## Papers" +:+ nl +:+ nl +:+
    paper_sections 1 papers
  ∧ sum_list (count_all (source_label <$> papers) []).*2 = length papers
  ∧ tally_get k (count_all (source_label <$> papers) [])
    = length (filter (λ p, source_label p = k) papers).
Proof.
  split; [|split].
  - unfold generate_report.
    by rewrite (tally_by_label source_label), !tally_by_labels.
  - by rewrite count_all_sum, length_fmap.
  - by rewrite count_all_get, occurrences_fmap.
Qed.

(** ** The web job, continued *)

(** X13. With the flag set and no new [start], the buffer grows by at
    most one item for each worker that is running, whatever the schedule,
    and the flag stays set. *)
Theorem stop_bounds_growth_of_all (net : nat → env) (s : job) (tr : list event) :
  stop_event s = true → no_start tr →
  stop_event (exec net tr s) = true
  ∧ (length (results (exec net tr s)) ≤ length (results s) + running_count s)%nat.
Proof.
  intros Hstop Hns.
  destruct (exec_stopped net tr s Hstop Hns) as [Hflag Hle].
  pose proof (pending_le_running s). split; [done|lia].
Qed.

Lemma stop_bounds_growth_of_all_witness :
  running_count two_stopped = 2%nat
  ∧ length (results two_stopped) = 0%nat
  ∧ length (results (exec (λ _, bare) [Run 0; Run 1; Run 0; Run 1; Run 0; Run 1]
                       two_stopped)) = 2%nat
  ∧ (length (results (exec (λ _, bare) [Run 0; Run 1; Run 0; Run 1; Run 0; Run 1]
                        two_stopped))
     ≤ length (results two_stopped) + running_count two_stopped)%nat.
Proof.
  split; [reflexivity|]. split; [reflexivity|]. split; [reflexivity|].
  apply (stop_bounds_growth_of_all (λ _, bare) two_stopped).
  - reflexivity.
  - repeat constructor.
Defined.

(** a worker that is past [results.clear()] only appends *)
Lemma search_worker_step_prefix e b res w :
  at_pc w ≠ Enter → res `prefix_of` (search_worker_step e b res w).1.
Proof.
  destruct w as [q m f l]. unfold search_worker_step. simpl.
  destruct l as [| |[|p todo]|p todo| | |[|id todo]|id todo|p u todo|];
    intros Hne; simpl; split_outcomes; try done; by eexists.
Qed.

Lemma step_prefix (net : nat → env) (ev : event) (s : job) :
  all_entered s → is_start ev = false →
  all_entered (step net ev s) ∧ results s `prefix_of` results (step net ev s).
Proof.
  unfold all_entered. intros Hall Hev.
  destruct ev as [q n| |i]; [done| |]; simpl; [done|].
  destruct (threads s !! i) as [w|] eqn:Hi; [|done].
  pose proof (search_worker_step_prefix (net (clock s)) (stop_event s) (results s) w
                (Forall_lookup_1 _ _ _ _ Hall Hi)) as Hpre.
  pose proof (search_worker_step_entered (net (clock s)) (stop_event s) (results s) w)
    as Hent.
  destruct (search_worker_step _ _ _ _) as [res w']. simpl in *.
  split; [|done]. by apply Forall_insert.
Qed.

Lemma exec_prefix (net : nat → env) (tr : list event) (s : job) :
  all_entered s → no_start tr →
  all_entered (exec net tr s) ∧ results s `prefix_of` results (exec net tr s).
Proof.
  revert s. induction tr as [|ev tr IH]; intros s Hall Hns; [done|].
  apply Forall_cons in Hns as [Hev Hns]. rewrite exec_cons.
  destruct (step_prefix net ev s Hall Hev) as [Hall' Hpre].
  destruct (IH _ Hall' Hns) as [? ?]. split; [done|]. by etrans.
Qed.

(** X14. The buffer is emptied at the start of a run and never during
    it: once every thread is past its [results.clear()], and as long as
    [start] is not called, the buffer only grows at its end, so what
    [get_results] returns at one time is the beginning of what it returns
    later. *)
Theorem buffer_grows_at_its_end (net : nat → env) (s : job) (tr : list event) :
  all_entered s → no_start tr →
  get_results s `prefix_of` get_results (exec net tr s).
Proof. intros Hall Hns. by apply exec_prefix. Qed.

Lemma buffer_grows_at_its_end_witness :
  get_results two_stopped
  `prefix_of` get_results (exec (λ _, bare) [Run 0; Run 1; Run 0; Run 1] two_stopped).
Proof.
  apply (buffer_grows_at_its_end (λ _, bare) two_stopped).
  - unfold all_entered. vm_compute. repeat constructor; discriminate.
  - repeat constructor.
Defined.

Lemma string_app_assoc (a b c : string) : (a +:+ b) +:+ c = a +:+ (b +:+ c).
Proof.
  induction a as [|x a IH]; [done|].
  change (String x ((a +:+ b) +:+ c) = String x (a +:+ (b +:+ c))). by rewrite IH.
Qed.

Lemma string_app_empty_r (a : string) : a +:+ "" = a.
Proof.
  induction a as [|x a IH]; [done|].
  change (String x (a +:+ "") = String x a). by rewrite IH.
Qed.

Lemma rows_from (start : string) (res : list item) :
  foldl (λ output it, output +:+ item_row it) start res = start +:+ item_rows res.
Proof.
  unfold item_rows. revert start. induction res as [|it res IH]; intros start.
  - simpl. by rewrite string_app_empty_r.
  - simpl. rewrite IH, (IH ("" +:+ item_row it)). by rewrite string_app_assoc.
Qed.

Lemma export_csv_app (res more : list item) :
  export_csv (res ++ more) = export_csv res +:+ item_rows more.
Proof. unfold export_csv. by rewrite foldl_app, rows_from. Qed.

(** X15. An export is the header record followed by the records of the
    buffer in order; for the empty buffer it is the header alone. During
    a run (every thread past its [results.clear()], no new [start]) a
    later export is an earlier one with records added at its end. *)
Theorem export_csv_extends (net : nat → env) (s : job) (tr : list event) :
  export_csv [] = "Title,Authors,URL" +:+ crlf
  ∧ (∀ res, export_csv res = "Title,Authors,URL" +:+ crlf +:+ item_rows res)
  ∧ (all_entered s → no_start tr →
     ∃ more, results (exec net tr s) = results s ++ more
             ∧ export_csv (results (exec net tr s))
               = export_csv (results s) +:+ item_rows more).
Proof.
  split; [done|]. split.
  - intros res. unfold export_csv. rewrite rows_from.
    by rewrite <- string_app_assoc.
  - intros Hall Hns.
    destruct (exec_prefix net tr s Hall Hns) as [_ [more Hmore]].
    exists more. split; [done|]. by rewrite Hmore, export_csv_app.
Qed.

Lemma export_csv_extends_witness :
  ∃ more,
    results (exec (λ _, bare) [Run 0; Run 1; Run 0; Run 1] two_stopped)
    = results two_stopped ++ more
    ∧ export_csv (results (exec (λ _, bare) [Run 0; Run 1; Run 0; Run 1] two_stopped))
      = export_csv (results two_stopped) +:+ item_rows more.
Proof.
  apply (export_csv_extends (λ _, bare) two_stopped [Run 0; Run 1; Run 0; Run 1]).
  - unfold all_entered. vm_compute. repeat constructor; discriminate.
  - repeat constructor.
Defined.

(** *** Every worker returns *)

Section Returns.

Variable net : nat → env.
Variable i : nat.

Implicit Types (s : job) (w : worker).

Local Abbreviation returns s := (∃ k, returns_within net i k s).

Lemma returns_now s w :
  threads s !! i = Some w → running w = false → returns s.
Proof. intros Hi Hw. exists 0%nat, w. by split. Qed.

Lemma step_lookup s w :
  threads s !! i = Some w →
  threads (step net (Run i) s) !! i
  = Some (search_worker_step (net (clock s)) (stop_event s) (results s) w).2.
Proof.
  intros Hi. unfold step. rewrite Hi.
  destruct (search_worker_step _ _ _ _) as [res w']. simpl.
  apply list_lookup_insert_eq. by eapply lookup_lt_Some.
Qed.

(** if the thread returns from wherever its next step takes it, it returns *)
Lemma returns_step s w :
  threads s !! i = Some w →
  (∀ s', threads s' !! i
         = Some (search_worker_step (net (clock s)) (stop_event s) (results s) w).2 →
         returns s') →
  returns s.
Proof.
  intros Hi Hnext.
  destruct (Hnext (step net (Run i) s) (step_lookup s w Hi)) as (k & w' & Hw' & Hr).
  exists (S k), w'. by split.
Qed.

Ltac next_step Hpc :=
  eapply returns_step; [eassumption|];
  let s' := fresh "s" in
  let Hs' := fresh "Hs" in
  intros s' Hs'; unfold search_worker_step in Hs'; rewrite Hpc in Hs';
  simpl in Hs'.

Lemma returns_from_Loop2 (todo : list string) s w :
  threads s !! i = Some w → at_pc w = Loop2 todo → returns s.
Proof.
  revert s w. induction todo as [|id todo IH]; intros s w Hi Hpc.
  - next_step Hpc. by eapply returns_now.
  - next_step Hpc.
    destruct (must_break (stop_event s) w); [by eapply returns_now|].
    clear Hi Hpc. eapply returns_step; [eassumption|].
    intros s1 Hs1. unfold search_worker_step in Hs1. simpl in Hs1.
    destruct (has_error _); [by eapply IH|].
    eapply returns_step; [eassumption|].
    intros s2 Hs2. unfold search_worker_step in Hs2. simpl in Hs2.
    destruct (title _); [by eapply IH|by eapply returns_now].
Qed.

Lemma returns_from_Gate2 s w :
  threads s !! i = Some w → at_pc w = Gate2 → returns s.
Proof.
  intros Hi Hpc. next_step Hpc.
  destruct (negb (stop_event s) && (found w <? max_results w));
    [|by eapply returns_now].
  clear Hi Hpc. eapply returns_step; [eassumption|].
  intros s1 Hs1. unfold search_worker_step in Hs1. simpl in Hs1.
  destruct (get_esearch _ _); [by eapply returns_now|].
  by eapply returns_from_Loop2.
Qed.

Lemma returns_from_Loop1 (todo : list paper) s w :
  threads s !! i = Some w → at_pc w = Loop1 todo → returns s.
Proof.
  revert s w. induction todo as [|p todo IH]; intros s w Hi Hpc.
  - next_step Hpc. by eapply returns_from_Gate2.
  - next_step Hpc.
    destruct (must_break (stop_event s) w); [by eapply returns_from_Gate2|].
    clear Hi Hpc. eapply returns_step; [eassumption|].
    intros s1 Hs1. unfold search_worker_step in Hs1. simpl in Hs1.
    destruct (title p), (url p);
      first [by eapply IH | by eapply returns_from_Gate2].
Qed.

Lemma returns_from_anywhere s w : threads s !! i = Some w → returns s.
Proof.
  intros Hi. destruct (at_pc w) eqn:Hpc.
  - next_step Hpc. clear Hi Hpc. eapply returns_step; [eassumption|].
    intros s1 Hs1. unfold search_worker_step in Hs1. simpl in Hs1.
    by eapply returns_from_Loop1.
  - next_step Hpc. by eapply returns_from_Loop1.
  - by eapply returns_from_Loop1.
  - next_step Hpc.
    destruct (title p), (url p);
      first [by eapply returns_from_Loop1 | by eapply returns_from_Gate2].
  - by eapply returns_from_Gate2.
  - next_step Hpc.
    destruct (get_esearch _ _); [by eapply returns_now|].
    by eapply returns_from_Loop2.
  - by eapply returns_from_Loop2.
  - next_step Hpc.
    destruct (has_error _); [by eapply returns_from_Loop2|].
    clear Hi Hpc. eapply returns_step; [eassumption|].
    intros s1 Hs1. unfold search_worker_step in Hs1. simpl in Hs1.
    destruct (title _); [by eapply returns_from_Loop2|by eapply returns_now].
  - next_step Hpc.
    destruct (title p); [by eapply returns_from_Loop2|by eapply returns_now].
  - eapply returns_now; [done|]. unfold running. by rewrite Hpc.
Qed.

End Returns.

(** X16. Every worker returns: whatever the state of the job, the flag
    and the answers of the network, a thread that is given enough turns
    reaches the end of [search_worker]. (A request is taken to return; the
    code sets no timeout.) *)
Theorem worker_returns (net : nat → env) (s : job) (i : nat) :
  (i < length (threads s))%nat →
  ∃ k w, threads (exec net (solo i k) s) !! i = Some w ∧ running w = false.
Proof.
  intros Hi. destruct (lookup_lt_is_Some_2 _ _ Hi) as [w Hw].
  exact (returns_from_anywhere net i s w Hw).
Qed.

Lemma worker_returns_witness :
  ∃ k w, threads (exec (λ _, bare) (solo 0 k) (start "dea" 3 idle)) !! 0%nat = Some w
         ∧ running w = false.
Proof.
  apply (worker_returns (λ _, bare) (start "dea" 3 idle) 0). simpl. lia.
Defined.

(** ** The flattening of [save_to_csv] *)

Lemma dict_set_fresh (k : string) (v : pyval) (d : pydict) :
  k ∉ d.*1 → dict_set k v d = d ++ [(k, v)].
Proof.
  induction d as [|[k0 v0] d IH]; intros Hk; [done|]. cbn [dict_set].
  rewrite decide_False.
  - rewrite IH; [done|]. intros Hin. apply Hk. by apply list_elem_of_further.
  - intros ->. apply Hk. apply list_elem_of_here.
Qed.

Lemma flatten_sub (key : string) (sub acc : pydict) :
  NoDup (acc.*1 ++ ((λ '(sk, sv), (key +:+ "_" +:+ sk, sv)) <$> sub).*1) →
  foldl (λ flat_item '(sub_key, sub_value),
           dict_set (key +:+ "_" +:+ sub_key) sub_value flat_item) acc sub
  = acc ++ ((λ '(sk, sv), (key +:+ "_" +:+ sk, sv)) <$> sub).
Proof.
  revert acc. induction sub as [|[sk sv] sub IH]; intros acc Hnd.
  - simpl. by rewrite app_nil_r.
  - csimpl in *. rewrite dict_set_fresh.
    + rewrite IH; [by rewrite <- app_assoc|].
      by rewrite fmap_app, <- app_assoc.
    + apply NoDup_app in Hnd as (_ & Hdis & _). intros Hin.
      apply (Hdis _ Hin). apply list_elem_of_here.
Qed.

Lemma flatten_from (d acc : pydict) :
  NoDup (acc.*1 ++ (flat_view d).*1) →
  foldl (λ flat_item '(key, value),
           match value with
           | VDict sub =>
               foldl (λ flat_item '(sub_key, sub_value),
                        dict_set (key +:+ "_" +:+ sub_key) sub_value flat_item)
                     flat_item sub
           | _ => dict_set key value flat_item
           end) acc d
  = acc ++ flat_view d.
Proof.
  unfold flat_view. revert acc. induction d as [|[k v] d IH]; intros acc Hnd.
  - simpl. by rewrite app_nil_r.
  - csimpl in *. rewrite fmap_app, app_assoc, <- fmap_app in Hnd.
    assert (Hhead : NoDup (acc.*1 ++ (match v with
                             | VDict sub =>
                                 (λ '(sk, sv), (k +:+ "_" +:+ sk, sv)) <$> sub
                             | _ => [(k, v)]
                             end).*1)).
    { rewrite <- fmap_app. apply NoDup_app in Hnd as (H & _ & _). exact H. }
    assert (Hfresh : ∀ v', NoDup (acc.*1 ++ [(k, v')].*1) →
              dict_set k v' acc = acc ++ [(k, v')]).
    { intros v' H. apply dict_set_fresh. apply NoDup_app in H as (_ & Hdis & _).
      intros Hin. apply (Hdis _ Hin). apply list_elem_of_here. }
    destruct v as [|str|l|sub].
    + rewrite (Hfresh _ Hhead), IH; [by rewrite <- app_assoc|done].
    + rewrite (Hfresh _ Hhead), IH; [by rewrite <- app_assoc|done].
    + rewrite (Hfresh _ Hhead), IH; [by rewrite <- app_assoc|done].
    + rewrite (flatten_sub k sub acc Hhead), IH; [by rewrite <- app_assoc|done].
Qed.

Lemma flat_view_app (a b : pydict) :
  flat_view (a ++ b) = flat_view a ++ flat_view b.
Proof. unfold flat_view. apply bind_app. Qed.

Lemma paper_dict_names (p : paper) : NoDup (flat_view (paper_dict p)).*1.
Proof.
  assert (Hsub : (flat_view (paper_dict p)).*1
                 `sublist_of` ["title"] ++ ["authors"] ++ ["abstract"]
                              ++ ["publication_date"] ++ ["doi"] ++ ["url"]
                              ++ ["source"] ++ ["error"]
                              ++ ["key_info_dea_type"; "key_info_materials";
                                  "key_info_performance_metrics";
                                  "key_info_applications"]).
  { unfold paper_dict. rewrite !flat_view_app, !fmap_app.
    repeat apply sublist_app.
    - destruct (title p); repeat constructor.
    - destruct (authors p); repeat constructor.
    - destruct (abstract p); repeat constructor.
    - destruct (publication_date p); repeat constructor.
    - destruct (doi p); repeat constructor.
    - destruct (url p); repeat constructor.
    - destruct (source p); repeat constructor.
    - destruct (error p); repeat constructor.
    - destruct (info p) as [[dt ms pf ap]|]; [|apply sublist_nil_l].
      destruct dt, ms, pf, ap; simpl;
        repeat first [ apply sublist_nil | apply sublist_skip | apply sublist_cons ]. }
  eapply sublist_NoDup; [|exact Hsub]. compute_done.
Qed.

(** X17. The flattening of [save_to_csv] goes one level deep. When no two
    resulting names coincide, it keeps the entries in their order and
    replaces an entry whose value is a dictionary by the entries of that
    dictionary under the names key_subkey; a dictionary further down stays
    a value. This is the case of every paper record: its names never
    coincide, a record without ["key_info"] is left as it is, and the
    metrics of an annotated record stay one dictionary under
    key_info_performance_metrics. *)
Theorem flatten_one_level (d : pydict) (p : paper) :
  (NoDup (flat_view d).*1 → flatten d = flat_view d)
  ∧ flatten (paper_dict p) = flat_view (paper_dict p)
  ∧ (info p = None → flatten (paper_dict p) = paper_dict p)
  ∧ (∀ ki m,
       info p = Some ki → performance ki = Some m →
       ("key_info_performance_metrics", VDict (metrics_dict m))
       ∈ flatten (paper_dict p)).
Proof.
  assert (Hflat : ∀ d', NoDup (flat_view d').*1 → flatten d' = flat_view d').
  { intros d' Hnd. unfold flatten. by rewrite flatten_from. }
  split; [apply Hflat|]. split; [apply Hflat, paper_dict_names|]. split.
  - intros Hi. rewrite Hflat by apply paper_dict_names.
    unfold paper_dict. rewrite Hi. simpl. rewrite !app_nil_r.
    rewrite !flat_view_app.
    by destruct (title p), (authors p), (abstract p), (publication_date p),
      (doi p), (url p), (source p), (error p).
  - intros ki m Hi Hm. rewrite Hflat by apply paper_dict_names.
    unfold paper_dict. rewrite !flat_view_app, Hi.
    do 8 (apply elem_of_app; right).
    unfold entry at 1, key_info_dict. rewrite Hm.
    destruct (dea_type ki), (materials ki), (applications ki); simpl;
      repeat first [ apply list_elem_of_here | apply list_elem_of_further ].
Qed.

Lemma flatten_one_level_witness :
  flatten (paper_dict (annotate (abstract_only "A DEA of 5% strain")))
  = [("abstract", VStr "A DEA of 5% strain");
     ("key_info_dea_type", VList ["DEA"]);
     ("key_info_materials", VList []);
     ("key_info_performance_metrics",
      VDict [("strain", VStr "5%"); ("energy_density", VNone);
             ("response_time", VNone)]);
     ("key_info_applications", VList [])].
Proof.
  rewrite (proj1 (flatten_one_level
                    (paper_dict (annotate (abstract_only "A DEA of 5% strain")))
                    empty_dict)).
  - reflexivity.
  - vm_compute. repeat constructor; compute_done.
Defined.

(** ** The records of an export *)

Lemma has_special_app (a b : string) :
  has_special (a +:+ b) = has_special a || has_special b.
Proof.
  induction a as [|c a IH]; [done|].
  change (has_special (String c (a +:+ b))
          = has_special (String c a) || has_special b).
  simpl. by rewrite IH, orb_assoc.
Qed.

Lemma join_two_special (a b : string) (rest : list string) :
  has_special (Py.join ", " (a :: b :: rest)) = true.
Proof.
  cbn [Py.join]. rewrite !has_special_app.
  apply orb_true_iff. right. apply orb_true_iff. by left.
Qed.

(** X18. In an export a field without comma, quote, CR or LF is written
    as it is, and any other field is written between quotes with its
    quotes doubled. The authors are joined by a comma and a blank, so the
    authors of an entry with two or more authors are always written
    between quotes. *)
Theorem export_fields (it : item) :
  item_row it
  = csv_field (item_title it) +:+ "," +:+
    csv_field (Py.join ", " (item_authors it)) +:+ "," +:+
    csv_field (item_url it) +:+ crlf
  ∧ (∀ f, has_special f = false → csv_field f = f)
  ∧ (∀ f, has_special f = true →
          csv_field f = String dquote (double_quotes f +:+ String dquote ""))
  ∧ ((2 ≤ length (item_authors it))%nat →
     csv_field (Py.join ", " (item_authors it))
     = String dquote (double_quotes (Py.join ", " (item_authors it))
                      +:+ String dquote "")).
Proof.
  split; [|split; [|split]].
  - unfold item_row, writerow.
    destruct (item_title it); cbn [fmap list_fmap Py.join];
      by rewrite !string_app_assoc.
  - intros f Hf. unfold csv_field. by rewrite Hf.
  - intros f Hf. unfold csv_field. by rewrite Hf.
  - intros Hl. destruct (item_authors it) as [|a [|b rest]]; simpl in Hl; [lia..|].
    unfold csv_field. by rewrite join_two_special.
Qed.

Lemma export_fields_witness :
  csv_field (Py.join ", " (item_authors quoted_item))
  = String dquote ("A. Author, B. Author" +:+ String dquote "")
  ∧ item_row quoted_item
    = String dquote (String dquote (String dquote "Soft")
                     +:+ String dquote (String dquote " actuators")
                     +:+ String dquote "")
      +:+ "," +:+ String dquote ("A. Author, B. Author" +:+ String dquote "")
      +:+ ",https://www.nature.com/a1" +:+ crlf.
Proof.
  split; [|reflexivity].
  apply (proj2 (proj2 (proj2 (export_fields quoted_item)))). simpl. lia.
Defined.

(** ** The web job under any schedule *)

Lemma search_worker_step_found e b res w :
  found_within w → found_within (search_worker_step e b res w).2.
Proof.
  destruct w as [q m f l].
  unfold found_within, search_worker_step, must_break, committed. simpl.
  destruct l as [| |[|p todo]|p todo| | |[|id todo]|id todo|p u todo|]; simpl;
    intros H; destruct b; simpl; split_outcomes;
    repeat match goal with
           | |- context [?x <=? ?y] => destruct (Z.leb_spec x y); simpl
           | |- context [?x <? ?y] => destruct (Z.ltb_spec x y); simpl
           end;
    repeat split; try done; try lia.
Qed.

Lemma search_worker_step_appends e b res w :
  at_pc w ≠ Enter →
  ∃ more, (search_worker_step e b res w).1 = res ++ more
          ∧ Z.of_nat (length more) = found (search_worker_step e b res w).2 - found w.
Proof.
  destruct w as [q m f l]. unfold search_worker_step. simpl.
  destruct l as [| |[|p todo]|p todo| | |[|id todo]|id todo|p u todo|];
    intros Hne; simpl; split_outcomes; try done;
    first [ by (exists []; rewrite app_nil_r; split; [done|simpl; lia])
          | by (eexists [_]; split; [done|simpl; lia]) ].
Qed.

Lemma step_found (net : nat → env) (ev : event) (s : job) :
  Forall found_within (threads s) → Forall found_within (threads (step net ev s)).
Proof.
  intros Hall. destruct ev as [q n| |i]; simpl; [|done|].
  - apply Forall_app. split; [done|]. by repeat constructor.
  - destruct (threads s !! i) as [w|] eqn:Hi; [|done].
    pose proof (search_worker_step_found (net (clock s)) (stop_event s) (results s) w
                  (Forall_lookup_1 _ _ _ _ Hall Hi)).
    destruct (search_worker_step _ _ _ _) as [res w']. simpl in *.
    by apply Forall_insert.
Qed.

(** X19. Under every schedule, overlapping runs included, the count
    [found] of every worker stays within its quota: at most
    [min(max_results, 1000)], and zero when that is negative. The count is
    the number of items the worker has appended: a step of a worker that is
    past [results.clear()] adds to the end of the buffer as many items as
    it adds to [found], none or one. *)
Theorem found_within_quota (net : nat → env) (tr : list event)
    (e : env) (b : bool) (res : list item) (w : worker) :
  Forall found_within (threads (exec net tr idle))
  ∧ (at_pc w ≠ Enter →
     ∃ more, (search_worker_step e b res w).1 = res ++ more
             ∧ Z.of_nat (length more)
               = found (search_worker_step e b res w).2 - found w
             ∧ (length more ≤ 1)%nat).
Proof.
  split.
  - assert (H : ∀ s, Forall found_within (threads s) →
                     Forall found_within (threads (exec net tr s))).
    { induction tr as [|ev tr IH]; intros s Hs; [done|].
      rewrite exec_cons. by apply IH, step_found. }
    apply H. constructor.
  - intros Hne.
    destruct (search_worker_step_appends e b res w Hne) as (more & Hres & Hlen).
    exists more. split; [done|]. split; [done|].
    destruct w as [q m f l]. revert Hres. unfold search_worker_step. simpl.
    destruct l as [| |[|p todo]|p todo| | |[|id todo]|id todo|p u todo|];
      simpl; split_outcomes; try done; intros Hres;
      first [ apply (f_equal length) in Hres; rewrite !length_app in Hres;
              simpl in Hres; lia ].
Qed.

Lemma found_within_quota_witness :
  ∃ more,
    (search_worker_step bare false []
       {| query := "dea"; max_results := 2; found := 0;
          at_pc := Append1 (search_hit "T" "https://www.nature.com/a1") [] |}).1
    = [] ++ more
    ∧ Z.of_nat (length more)
      = found (search_worker_step bare false []
                 {| query := "dea"; max_results := 2; found := 0;
                    at_pc := Append1 (search_hit "T" "https://www.nature.com/a1") [] |}).2
        - 0
    ∧ (length more ≤ 1)%nat.
Proof.
  apply (proj2 (found_within_quota (λ _, bare) [] bare false []
                  {| query := "dea"; max_results := 2; found := 0;
                     at_pc := Append1 (search_hit "T" "https://www.nature.com/a1") [] |})).
  discriminate.
Defined.

Lemma stopped_last_cons (ev : event) (tr : list event) :
  stopped_last (ev :: tr) ↔ (ev = Stop ∧ no_start tr) ∨ stopped_last tr.
Proof.
  unfold stopped_last. split.
  - intros ([|x before] & after & Heq & Hns); simplify_eq/=.
    + by left.
    + right. by exists before, after.
  - intros [[-> Hns]|(before & after & -> & Hns)].
    + by exists [], tr.
    + by exists (ev :: before), after.
Qed.

(** X20. The flag follows the two handlers and nothing else: after a
    schedule it is set exactly when [stop] was called in the schedule and
    [start] was not called after it, or when it was set before and [start]
    was not called at all. No step of a worker changes it, and a second
    [stop] changes nothing. *)
Theorem flag_follows_handlers (net : nat → env) (tr : list event) (s : job) :
  stop_event (exec net tr s) = true
  ↔ stopped_last tr ∨ (stop_event s = true ∧ no_start tr).
Proof.
  revert s. induction tr as [|ev tr IH]; intros s.
  - rewrite exec_nil. split.
    + intros H. right. split; [done|constructor].
    + intros [([|? ?] & ? & ? & _)|[H _]]; by simplify_eq/=.
  - rewrite exec_cons, IH, stopped_last_cons. unfold no_start.
    rewrite Forall_cons.
    destruct ev as [q n| |i]; simpl.
    + split.
      * intros [?|[? ?]]; [by left; right|done].
      * intros [[[? ?]|?]|[_ [? ?]]]; [done|by left|done].
    + split.
      * intros [?|[_ ?]]; [by left; right|by left; left].
      * intros [[[_ ?]|?]|[_ [_ ?]]]; [by right|by left|by right].
    + assert (Hflag : stop_event
                (match threads s !! i with
                 | Some w =>
                     let '(res, w') :=
                       search_worker_step (net (clock s)) (stop_event s) (results s) w in
                     {| stop_event := stop_event s; results := res;
                        threads := <[i:=w']> (threads s); clock := S (clock s) |}
                 | None => s
                 end) = stop_event s).
      { destruct (threads s !! i); [|done]. by destruct (search_worker_step _ _ _ _). }
      rewrite Hflag. split.
      * intros [?|[? ?]]; [by left; right|by right].
      * intros [[[? ?]|?]|[? [_ ?]]]; [done|by left|by right].
Qed.

Lemma flag_follows_handlers_witness :
  stop_event (exec (λ _, bare) [Start "dea" 5; Run 0; Stop; Run 0; Stop; Run 0] idle)
  = true.
Proof.
  apply (proj2 (flag_follows_handlers (λ _, bare)
                  [Start "dea" 5; Run 0; Stop; Run 0; Stop; Run 0] idle)).
  left. exists [Start "dea" 5; Run 0], [Run 0; Stop; Run 0].
  split; [reflexivity|repeat constructor].
Defined.

Lemma search_papers_shape (e : env) (q : string) (n : Z) :
  Forall hit_shaped (value (search_papers e q n)).
Proof.
  unfold value, run, search_papers, request. simpl.
  destruct (get_search e (nature_search_url q)) as [msg|arts]; simpl; [constructor|].
  apply Forall_forall. intros p Hp.
  destruct (search_loop_shape _ _ Hp) as (t & href & ->). by exists (Py.strip t), href.
Qed.

Lemma slice_to_subseteq {A} (l : list A) (n : Z) : Py.slice_to l n ⊆ l.
Proof.
  unfold Py.slice_to. destruct (0 <=? n); apply sublist_subseteq, sublist_take.
Qed.

(** the entries and the workers of a job are still accounted for after
    more calls of [start] *)
Lemma nature_item_mono net (runs runs' : list (string * Z)) (it : item) :
  runs ⊆ runs' → nature_item net runs it → nature_item net runs' it.
Proof.
  intros Hsub (q & n & t & p & Hin & H). exists q, n, t, p. split; [|done].
  by apply Hsub.
Qed.

Lemma pmc_item_mono net (runs runs' : list (string * Z)) (it : item) :
  runs ⊆ runs' → pmc_item net runs it → pmc_item net runs' it.
Proof.
  intros Hsub (q & n & t & ids & id & t' & Hin & H). exists q, n, t, ids, id, t'.
  split; [|done]. by apply Hsub.
Qed.

Lemma carries_hits_mono net (runs runs' : list (string * Z)) (w : worker) :
  runs ⊆ runs' → carries_hits net runs w → carries_hits net runs' w.
Proof.
  intros Hsub [(n & Hin & Hm) H]. split; [|done]. exists n. split; [|done].
  by apply Hsub.
Qed.

Lemma search_worker_step_shape net (runs : list (string * Z)) (t : nat)
    (b : bool) (res : list item) (w : worker) :
  carries_hits net runs w →
  Forall (λ it, nature_item net runs it ∨ pmc_item net runs it) res →
  carries_hits net runs (search_worker_step (net t) b res w).2
  ∧ Forall (λ it, nature_item net runs it ∨ pmc_item net runs it)
           (search_worker_step (net t) b res w).1.
Proof.
  destruct w as [q m f l]. unfold carries_hits, search_worker_step. simpl.
  destruct l as [| |[|p todo]|p todo| | |[|id todo]|id todo|p u todo|]; simpl;
    intros [(n & Hin & Hm) Hw] Hres.
  - split; [|constructor]. split; [|done]. exists n. by rewrite Hm.
  - split; [|done]. split; [by exists n|]. by exists t.
  - split; [|done]. split; [by exists n|done].
  - split; [|done]. destruct (must_break b _); simpl; (split; [by exists n|done]).
  - destruct Hw as [t0 Hsub].
    assert (Hp : p ∈ value (search_papers (net t0) q m)).
    { apply Hsub. by left. }
    pose proof (search_papers_shape (net t0) q m) as Hshape.
    rewrite Forall_forall in Hshape.
    destruct (Hshape p Hp) as (ti & href & Heq). rewrite Heq. simpl. split.
    + split; [by exists n|]. exists t0. intros x Hx. apply Hsub. by right.
    + apply Forall_app. split; [done|]. apply Forall_singleton. left.
      exists q, n, t0, p. rewrite <- Hm. split; [done|]. split; [done|].
      rewrite Heq. simpl. repeat split; try done. by exists href.
  - split; [|done]. destruct (negb b && _); simpl; (split; [by exists n|done]).
  - destruct (get_esearch (net t) (pmc_url q m)) as [msg|ids] eqn:Hidx; simpl;
      (split; [|done]); (split; [by exists n|]); [done|].
    exists t, ids. split; [done|]. apply slice_to_subseteq.
  - split; [|done]. split; [by exists n|done].
  - split; [|done]. destruct (must_break b _); simpl; (split; [by exists n|done]).
  - destruct Hw as (t0 & ids & Hidx & Hsub). split; [|done].
    destruct (has_error _) eqn:Herr; simpl; (split; [by exists n|]).
    + exists t0, ids. split; [done|]. intros x Hx. apply Hsub. by right.
    + exists t0, ids, id, t. repeat split; try done.
      unfold has_error in Herr. apply bool_decide_eq_false in Herr.
      by apply eq_None_not_Some.
  - destruct Hw as (t0 & ids & id & t' & Hidx & Hsub & -> & Hp & Herr).
    destruct (title p) as [ti|] eqn:Hti; simpl.
    + split.
      * split; [by exists n|]. exists t0, ids. split; [done|].
        intros x Hx. apply Hsub. by right.
      * apply Forall_app. split; [done|]. apply Forall_singleton. right.
        exists q, n, t0, ids, id, t'. simpl. rewrite <- Hm, <- Hp.
        repeat split; try done. apply Hsub. by left.
    + split; [|done]. split; [by exists n|done].
  - split; [|done]. split; [by exists n|done].
Qed.

Lemma step_shape (net : nat → env) (runs : list (string * Z)) (ev : event)
    (s : job) :
  Forall (carries_hits net runs) (threads s) →
  Forall (λ it, nature_item net runs it ∨ pmc_item net runs it) (results s) →
  Forall (carries_hits net (runs ++ started [ev])) (threads (step net ev s))
  ∧ Forall (λ it, nature_item net (runs ++ started [ev]) it
                  ∨ pmc_item net (runs ++ started [ev]) it)
           (results (step net ev s)).
Proof.
  intros Hw Hres.
  assert (Hsub : runs ⊆ runs ++ started [ev]).
  { intros x Hx. apply elem_of_app. by left. }
  assert (Hw' : Forall (carries_hits net (runs ++ started [ev])) (threads s)).
  { eapply Forall_impl; [exact Hw|]. intros w. by apply carries_hits_mono. }
  assert (Hres' : Forall (λ it, nature_item net (runs ++ started [ev]) it
                                ∨ pmc_item net (runs ++ started [ev]) it)
                         (results s)).
  { eapply Forall_impl; [exact Hres|].
    intros it [H|H]; [left; by eapply nature_item_mono
                     |right; by eapply pmc_item_mono]. }
  destruct ev as [q n| |i]; simpl; [|done|].
  - split; [|done]. apply Forall_app. split; [done|]. apply Forall_singleton.
    split; [|done]. exists n. split; [|done].
    apply elem_of_app. right. by left.
  - destruct (threads s !! i) as [w|] eqn:Hi; [|done].
    pose proof (search_worker_step_shape net (runs ++ started [Run i]) (clock s)
                  (stop_event s) (results s) w
                  (Forall_lookup_1 _ _ _ _ Hw' Hi) Hres') as [? ?].
    destruct (search_worker_step _ _ _ _) as [res w']. simpl in *.
    split; [by apply Forall_insert|done].
Qed.

Lemma started_cons (ev : event) (tr : list event) :
  started (ev :: tr) = started [ev] ++ started tr.
Proof. unfold started. simpl. by destruct ev. Qed.

(** X21. Under every schedule and every network, overlapping runs
    included, each entry of the buffer comes from a call of [start] in
    the schedule, with its query and its bound clamped to 1000. Either it
    is made from a hit that the Nature search gave for them: it has the
    title and the address of that hit, no author, and its address is
    under https://www.nature.com. Or it is made from a PubMed Central
    article: the index gave an identifier for them, the article page of
    that identifier was fetched without error, and the entry has the
    title and the authors of that record and the address of the
    article. *)
Theorem buffer_entries (net : nat → env) (tr : list event) :
  Forall (λ it, nature_item net (started tr) it ∨ pmc_item net (started tr) it)
         (get_results (exec net tr idle)).
Proof.
  assert (H : ∀ runs s,
             Forall (carries_hits net runs) (threads s) →
             Forall (λ it, nature_item net runs it ∨ pmc_item net runs it)
                    (results s) →
             Forall (λ it, nature_item net (runs ++ started tr) it
                           ∨ pmc_item net (runs ++ started tr) it)
                    (results (exec net tr s))).
  { induction tr as [|ev tr IH]; intros runs s Hw Hres.
    - simpl. by rewrite app_nil_r.
    - rewrite exec_cons, started_cons, app_assoc.
      destruct (step_shape net runs ev s Hw Hres) as [? ?]. by apply IH. }
  apply (H [] idle); constructor.
Qed.

Lemma buffer_entries_example :
  get_results (exec (λ _, bare) [Start "x" 10; Run 0; Run 0; Run 0; Run 0] idle)
  = [{| item_title := "https://www.nature.com/search?q=x&order=relevance&journal= first";
        item_authors := []; item_url := "https://www.nature.com/a1" |}]
  ∧ started [Start "x" 10; Run 0; Run 0; Run 0; Run 0] = [("x", 10)].
Proof. vm_compute. done. Qed.
